(** * sectxt: the security.txt parser and validator

    A shallow embedding of [sectxt.Parser] (src/sectxt/__init__.py) and the
    properties of its line-by-line pass and of its cross-field pass.

    Conventions of the embedding.
    - A Python [str] is a [string]; a character is a code point in 0..255.
      [isspace] and [lower] are the Python predicates on that range.
    - The object [self] is a record [Parser]; a method takes the record and
      returns the updated record.
    - A Python exception is a value [Raise e] of [result]; the exceptions of
      the libraries the parser calls ([urlsplit], [dateutil], [pgpy],
      [datetime]) are results of the functions of the environment [Env].
    - [self._values], a [defaultdict(list)], is a [gmap string (list string)];
      every read of the source is guarded by a membership test, so a read
      never creates a key. *)

From Stdlib Require Import String Ascii ZArith List Bool Lia.
From stdpp Require Import base option list strings gmap.
Import ListNotations.

Local Open Scope string_scope.
Local Open Scope Z_scope.
Local Open Scope nat_scope.

(** ** Python strings *)

Module Str.

(** [bool(s)]: a string is truthy when it is not empty. *)
Definition truthy (s : string) : bool :=
  match s with EmptyString => false | String _ _ => true end.

(** [str.isspace] on one character, for code points up to 255:
    TAB..CR, FS..US, SPACE, NEL and NBSP. *)
Definition isspace (c : ascii) : bool :=
  let n := nat_of_ascii c in
  ((9 <=? n) && (n <=? 13)) || ((28 <=? n) && (n <=? 32))
  || (n =? 133) || (n =? 160).

(** [s.lstrip()] *)
Fixpoint lstrip (s : string) : string :=
  match s with
  | EmptyString => EmptyString
  | String c s' => if isspace c then lstrip s' else s
  end.

(** [s.rstrip()] *)
Fixpoint rstrip (s : string) : string :=
  match s with
  | EmptyString => EmptyString
  | String c s' =>
      match rstrip s' with
      | EmptyString => if isspace c then EmptyString else String c EmptyString
      | r => String c r
      end
  end.

(** [s.strip()] *)
Definition strip (s : string) : string := rstrip (lstrip s).

(** [str.lower] on one character: A..Z, and the upper-case letters of
    0xC0..0xDE (0xD7, the multiplication sign, has no case). *)
Definition lower_char (c : ascii) : ascii :=
  let n := nat_of_ascii c in
  if ((65 <=? n) && (n <=? 90))
     || ((192 <=? n) && (n <=? 222) && negb (n =? 215))
  then ascii_of_nat (n + 32) else c.

(** [s.lower()] *)
Fixpoint lower (s : string) : string :=
  match s with
  | EmptyString => EmptyString
  | String c s' => String (lower_char c) (lower s')
  end.

(** [s.startswith(p)] *)
Definition startswith (s p : string) : bool := String.prefix p s.

(** [s[n:]] *)
Fixpoint drop (n : nat) (s : string) : string :=
  match n, s with
  | O, _ => s
  | S _, EmptyString => EmptyString
  | S n', String _ s' => drop n' s'
  end.

(** [s.endswith(p)] *)
Definition endswith (s p : string) : bool :=
  (String.length p <=? String.length s)
  && String.eqb (drop (String.length s - String.length p) s) p.

(** [c in s] for a one-character string [c] *)
Fixpoint contains (c : ascii) (s : string) : bool :=
  match s with
  | EmptyString => false
  | String d s' => Ascii.eqb d c || contains c s'
  end.

(** [s.split(sep)] for a one-character separator: never an empty list,
    and a final empty element when [s] ends with the separator. *)
Fixpoint split (sep : ascii) (s : string) : list string :=
  match s with
  | EmptyString => [EmptyString]
  | String c s' =>
      if Ascii.eqb c sep then EmptyString :: split sep s'
      else match split sep s' with
           | h :: t => String c h :: t
           | [] => [String c EmptyString]
           end
  end.

(** [s.split(sep, 1)] for a one-character separator: [None] stands for the
    one-element list returned when [sep] does not occur in [s]. *)
Fixpoint split1 (sep : ascii) (s : string) : option (string * string) :=
  match s with
  | EmptyString => None
  | String c s' =>
      if Ascii.eqb c sep then Some (EmptyString, s')
      else match split1 sep s' with
           | Some (k, v) => Some (String c k, v)
           | None => None
           end
  end.

(** [s[0] != c] for a non-empty [s] *)
Definition first_is (c : ascii) (s : string) : bool :=
  match s with
  | String d _ => Ascii.eqb d c
  | EmptyString => false
  end.

(** The double quote, for messages that contain one. *)
Definition dquote : string := String (ascii_of_nat 34) EmptyString.

(** The line feed. *)
Definition LF : ascii := ascii_of_nat 10.

End Str.

(** [x in l] on a list of strings *)
Definition str_in (x : string) (l : list string) : bool :=
  existsb (String.eqb x) l.

(** ** Exceptions *)

Inductive exn : Type :=
| ValueError | TypeError | IndexError | PGPError | ParserError | OtherError.

Inductive result (A : Type) : Type :=
| Ok (a : A)
| Raise (e : exn).
Arguments Ok {A} a.
Arguments Raise {A} e.

Definition rbind {A B} (r : result A) (k : A -> result B) : result B :=
  match r with
  | Ok a => k a
  | Raise e => Raise e
  end.

Notation "'try!' x <- r ; k" := (rbind r (fun x => k))
  (at level 10, x pattern, r at level 100, k at level 200).

(** ** datetime

    The fields of a Python [datetime]; [tzoffset] is [utcoffset()] in
    seconds, [None] for a naive value. *)

Record datetime : Type := {
  year : Z; month : Z; day : Z;
  hour : Z; minute : Z; second : Z; microsecond : Z;
  tzoffset : option Z
}.

Module DT.
Local Open Scope Z_scope.

Definition is_leap (y : Z) : bool :=
  (y mod 4 =? 0) && (negb (y mod 100 =? 0) || (y mod 400 =? 0)).

Definition days_in_month (y m : Z) : Z :=
  if m =? 2 then (if is_leap y then 29 else 28)
  else if (m =? 4) || (m =? 6) || (m =? 9) || (m =? 11) then 30
  else 31.

Definition days_before_year (y : Z) : Z :=
  let y1 := y - 1 in y1 * 365 + y1 / 4 - y1 / 100 + y1 / 400.

Fixpoint days_before_month_aux (y : Z) (n : nat) : Z :=
  match n with
  | O => 0
  | S n' => days_before_month_aux y n' + days_in_month y (Z.of_nat n)
  end.

(** Days of the year [y] before the first day of month [m]. *)
Definition days_before_month (y m : Z) : Z :=
  days_before_month_aux y (Z.to_nat (m - 1)).

Definition ymd2ord (y m d : Z) : Z :=
  days_before_year y + days_before_month y m + d.

(** The range checks of the [datetime] constructor. *)
Definition check_fields (d : datetime) : bool :=
  (1 <=? year d) && (year d <=? 9999)
  && (1 <=? month d) && (month d <=? 12)
  && (1 <=? day d) && (day d <=? days_in_month (year d) (month d))
  && (0 <=? hour d) && (hour d <? 24)
  && (0 <=? minute d) && (minute d <? 60)
  && (0 <=? second d) && (second d <? 60)
  && (0 <=? microsecond d) && (microsecond d <? 1000000).

(** [d.replace(year=y)]: the constructor runs on the new fields and raises
    [ValueError] when they are not a date (29 February of a common year,
    a year above 9999). *)
Definition replace_year (d : datetime) (y : Z) : result datetime :=
  let d' := {| year := y; month := month d; day := day d;
               hour := hour d; minute := minute d; second := second d;
               microsecond := microsecond d; tzoffset := tzoffset d |} in
  if check_fields d' then Ok d' else Raise ValueError.

Definition with_tz (d : datetime) (off : option Z) : datetime :=
  {| year := year d; month := month d; day := day d;
     hour := hour d; minute := minute d; second := second d;
     microsecond := microsecond d; tzoffset := off |}.

(** Microseconds since the start of day 0, after subtracting the offset
    [off] (seconds). *)
Definition micros (d : datetime) (off : Z) : Z :=
  ((((ymd2ord (year d) (month d) (day d) * 24 + hour d) * 60
     + minute d) * 60 + second d) - off) * 1000000 + microsecond d.

Definition offset_ok (off : Z) : bool := (-86400 <? off) && (off <? 86400).

(** The three-way comparison behind [<] and [>]: two aware values compare
    by instant, two naive values by their fields; a naive value against an
    aware one raises [TypeError]; an offset of a day or more raises
    [ValueError]. *)
Definition cmp (a b : datetime) : result comparison :=
  match tzoffset a, tzoffset b with
  | Some oa, Some ob =>
      if offset_ok oa && offset_ok ob
      then Ok (Z.compare (micros a oa) (micros b ob))
      else Raise ValueError
  | None, None => Ok (Z.compare (micros a 0) (micros b 0))
  | _, _ => Raise TypeError
  end.

(** [a > b] *)
Definition gt (a b : datetime) : result bool :=
  try! c <- cmp a b; Ok (match c with Gt => true | _ => false end).

(** [a < b] *)
Definition lt (a b : datetime) : result bool :=
  try! c <- cmp a b; Ok (match c with Lt => true | _ => false end).

End DT.

(** ** The pattern [Parser.iso8601_re]

    [\d{4}-\d{2}-\d{2}[T ]\d{2}:\d{2}:\d{2}(\.\d+)?(Z|[-+]\d{2}:\d{2})$] with
    IGNORECASE and ASCII, used with [match] (anchored at the start). *)

Module Iso8601.

Local Notation "'opt!' x <- r ; k" :=
  (match r with Some x => k | None => None end)
  (at level 10, x name, r at level 100, k at level 200).

Definition is_digit (c : ascii) : bool :=
  let n := nat_of_ascii c in (48 <=? n) && (n <=? 57).

(** [\d{n}]: consume exactly [n] digits. *)
Fixpoint digits (n : nat) (s : string) : option string :=
  match n with
  | O => Some s
  | S n' =>
      match s with
      | String c s' => if is_digit c then digits n' s' else None
      | EmptyString => None
      end
  end.

(** One literal character out of [cs]. *)
Definition one_of (cs : list ascii) (s : string) : option string :=
  match s with
  | String c s' => if existsb (Ascii.eqb c) cs then Some s' else None
  | EmptyString => None
  end.

(** [\d*], greedy. *)
Fixpoint digits_star (s : string) : string :=
  match s with
  | String c s' => if is_digit c then digits_star s' else s
  | EmptyString => s
  end.

(** [(\.\d+)?]: a digit is never the start of what follows, so the greedy
    choice is the only one that can succeed. *)
Definition fraction (s : string) : string :=
  match s with
  | String "." (String c s') =>
      if is_digit c then digits_star s' else s
  | _ => s
  end.

(** [(Z|[-+]\d{2}:\d{2})] *)
Definition zone (s : string) : option string :=
  match s with
  | String c s' =>
      if existsb (Ascii.eqb c) ["Z"; "z"]%char then Some s'
      else if existsb (Ascii.eqb c) ["-"; "+"]%char then
        opt! s1 <- digits 2 s'; opt! s2 <- one_of [":"%char] s1; digits 2 s2
      else None
  | EmptyString => None
  end.

(** [$]: the end of the string, or a line feed that ends the string. *)
Definition at_end (s : string) : bool :=
  match s with
  | EmptyString => true
  | String c EmptyString => Ascii.eqb c Str.LF
  | _ => false
  end.

Definition matches (value : string) : bool :=
  match
    (opt! s <- digits 4 value; opt! s <- one_of ["-"%char] s;
     opt! s <- digits 2 s; opt! s <- one_of ["-"%char] s;
     opt! s <- digits 2 s; opt! s <- one_of ["T"; "t"; " "]%char s;
     opt! s <- digits 2 s; opt! s <- one_of [":"%char] s;
     opt! s <- digits 2 s; opt! s <- one_of [":"%char] s;
     opt! s <- digits 2 s; zone (fraction s))
  with
  | Some rest => at_end rest
  | None => false
  end.

End Iso8601.

(** ** The data of the parser *)

(** [ErrorDict] *)
Record ErrorDict : Type := {
  code : string;
  message : string;
  line : option nat
}.

(** [LineDict] *)
Record LineDict : Type := {
  type : string;
  field_name : option string;
  value : string
}.

(** The argument [urls] of the constructor: a string, a list or [None]. *)
Inductive urls_arg : Type :=
| UrlStr (s : string)
| UrlList (l : list string)
| UrlNone.

Definition strlist_from_arg (arg : urls_arg) : option (list string) :=
  match arg with
  | UrlStr s => Some [s]
  | UrlList l => Some l
  | UrlNone => None
  end.

Definition PREFERRED_LANGUAGES : string := "preferred-languages".

Definition uri_fields : list string :=
  ["acknowledgments"; "canonical"; "contact"; "encryption"; "hiring";
   "policy"; "csaf"].

Definition known_fields : list string :=
  (uri_fields ++ [PREFERRED_LANGUAGES; "expires"])%list.

(** The libraries the parser calls, as functions of their arguments.
    [utcnow] is [datetime.now(timezone.utc)]: the parser reads the clock at
    most once per line, so a reading is a function of [self._line_no]. *)
Record Env : Type := {
  (** [urlsplit(value).scheme]; [urlsplit] raises on some inputs *)
  urlsplit_scheme : string -> result string;
  (** [langcodes.tag_is_valid] *)
  tag_is_valid : string -> bool;
  (** [dateutil.parser.parse] *)
  dateutil_parse : string -> result datetime;
  (** [pgpy.PGPMessage.from_blob], for its exceptions only *)
  from_blob : string -> result unit;
  utcnow : option nat -> datetime
}.

(** The attributes of a [Parser] object. [_expires_date] does not exist
    before the first assignment: [None]. *)
Record Parser : Type := {
  _urls : option (list string);
  _line_info : list LineDict;
  _errors : list ErrorDict;
  _recommendations : list ErrorDict;
  _notifications : list ErrorDict;
  _values : gmap string (list string);
  _langs : option (list string);
  _signed : bool;
  _reading_sig : bool;
  _finished_sig : bool;
  _content : string;
  recommend_unknown_fields : bool;
  _line_no : option nat;
  _expires_date : option datetime
}.

(** Assignments to one attribute. *)

Definition set_line_info (self : Parser) (x : list LineDict) : Parser :=
  {| _urls := _urls self; _line_info := x; _errors := _errors self;
     _recommendations := _recommendations self;
     _notifications := _notifications self; _values := _values self;
     _langs := _langs self; _signed := _signed self;
     _reading_sig := _reading_sig self; _finished_sig := _finished_sig self;
     _content := _content self;
     recommend_unknown_fields := recommend_unknown_fields self;
     _line_no := _line_no self; _expires_date := _expires_date self |}.

Definition set_errors (self : Parser) (x : list ErrorDict) : Parser :=
  {| _urls := _urls self; _line_info := _line_info self; _errors := x;
     _recommendations := _recommendations self;
     _notifications := _notifications self; _values := _values self;
     _langs := _langs self; _signed := _signed self;
     _reading_sig := _reading_sig self; _finished_sig := _finished_sig self;
     _content := _content self;
     recommend_unknown_fields := recommend_unknown_fields self;
     _line_no := _line_no self; _expires_date := _expires_date self |}.

Definition set_recommendations (self : Parser) (x : list ErrorDict) : Parser :=
  {| _urls := _urls self; _line_info := _line_info self;
     _errors := _errors self; _recommendations := x;
     _notifications := _notifications self; _values := _values self;
     _langs := _langs self; _signed := _signed self;
     _reading_sig := _reading_sig self; _finished_sig := _finished_sig self;
     _content := _content self;
     recommend_unknown_fields := recommend_unknown_fields self;
     _line_no := _line_no self; _expires_date := _expires_date self |}.

Definition set_notifications (self : Parser) (x : list ErrorDict) : Parser :=
  {| _urls := _urls self; _line_info := _line_info self;
     _errors := _errors self; _recommendations := _recommendations self;
     _notifications := x; _values := _values self;
     _langs := _langs self; _signed := _signed self;
     _reading_sig := _reading_sig self; _finished_sig := _finished_sig self;
     _content := _content self;
     recommend_unknown_fields := recommend_unknown_fields self;
     _line_no := _line_no self; _expires_date := _expires_date self |}.

Definition set_values (self : Parser) (x : gmap string (list string)) : Parser :=
  {| _urls := _urls self; _line_info := _line_info self;
     _errors := _errors self; _recommendations := _recommendations self;
     _notifications := _notifications self; _values := x;
     _langs := _langs self; _signed := _signed self;
     _reading_sig := _reading_sig self; _finished_sig := _finished_sig self;
     _content := _content self;
     recommend_unknown_fields := recommend_unknown_fields self;
     _line_no := _line_no self; _expires_date := _expires_date self |}.

Definition set_langs (self : Parser) (x : option (list string)) : Parser :=
  {| _urls := _urls self; _line_info := _line_info self;
     _errors := _errors self; _recommendations := _recommendations self;
     _notifications := _notifications self; _values := _values self;
     _langs := x; _signed := _signed self;
     _reading_sig := _reading_sig self; _finished_sig := _finished_sig self;
     _content := _content self;
     recommend_unknown_fields := recommend_unknown_fields self;
     _line_no := _line_no self; _expires_date := _expires_date self |}.

Definition set_signed (self : Parser) (x : bool) : Parser :=
  {| _urls := _urls self; _line_info := _line_info self;
     _errors := _errors self; _recommendations := _recommendations self;
     _notifications := _notifications self; _values := _values self;
     _langs := _langs self; _signed := x;
     _reading_sig := _reading_sig self; _finished_sig := _finished_sig self;
     _content := _content self;
     recommend_unknown_fields := recommend_unknown_fields self;
     _line_no := _line_no self; _expires_date := _expires_date self |}.

Definition set_reading_sig (self : Parser) (x : bool) : Parser :=
  {| _urls := _urls self; _line_info := _line_info self;
     _errors := _errors self; _recommendations := _recommendations self;
     _notifications := _notifications self; _values := _values self;
     _langs := _langs self; _signed := _signed self;
     _reading_sig := x; _finished_sig := _finished_sig self;
     _content := _content self;
     recommend_unknown_fields := recommend_unknown_fields self;
     _line_no := _line_no self; _expires_date := _expires_date self |}.

Definition set_finished_sig (self : Parser) (x : bool) : Parser :=
  {| _urls := _urls self; _line_info := _line_info self;
     _errors := _errors self; _recommendations := _recommendations self;
     _notifications := _notifications self; _values := _values self;
     _langs := _langs self; _signed := _signed self;
     _reading_sig := _reading_sig self; _finished_sig := x;
     _content := _content self;
     recommend_unknown_fields := recommend_unknown_fields self;
     _line_no := _line_no self; _expires_date := _expires_date self |}.

Definition set_line_no (self : Parser) (x : option nat) : Parser :=
  {| _urls := _urls self; _line_info := _line_info self;
     _errors := _errors self; _recommendations := _recommendations self;
     _notifications := _notifications self; _values := _values self;
     _langs := _langs self; _signed := _signed self;
     _reading_sig := _reading_sig self; _finished_sig := _finished_sig self;
     _content := _content self;
     recommend_unknown_fields := recommend_unknown_fields self;
     _line_no := x; _expires_date := _expires_date self |}.

Definition set_expires_date (self : Parser) (x : option datetime) : Parser :=
  {| _urls := _urls self; _line_info := _line_info self;
     _errors := _errors self; _recommendations := _recommendations self;
     _notifications := _notifications self; _values := _values self;
     _langs := _langs self; _signed := _signed self;
     _reading_sig := _reading_sig self; _finished_sig := _finished_sig self;
     _content := _content self;
     recommend_unknown_fields := recommend_unknown_fields self;
     _line_no := _line_no self; _expires_date := x |}.

(** [self._values[key].append(value)]: a missing key starts from []. *)
Definition values_append (self : Parser) (key value : string) : Parser :=
  set_values self
    (<[key := (default [] (_values self !! key) ++ [value])%list]> (_values self)).

(** [key in self._values] *)
Definition has_key (self : Parser) (key : string) : bool :=
  match _values self !! key with Some _ => true | None => false end.

(** [self._values[key]] under the guard [key in self._values] *)
Definition values_of (self : Parser) (key : string) : list string :=
  default [] (_values self !! key).

(** ** The methods of [Parser] *)

Definition BEGIN_SIGNED : string := "-----BEGIN PGP SIGNED MESSAGE-----".
Definition BEGIN_SIGNATURE : string := "-----BEGIN PGP SIGNATURE-----".
Definition END_SIGNATURE : string := "-----END PGP SIGNATURE-----".

Definition mk_line (t : string) (f : option string) (v : string) : LineDict :=
  {| type := t; field_name := f; value := v |}.

(** [_add_error]: [explicit_line_no] replaces the current line number when
    it is truthy (given and not 0). *)
Definition _add_error (self : Parser) (code message : string)
    (explicit_line_no : option nat) : Parser :=
  let error_line :=
    match explicit_line_no with
    | Some (S n) => Some (S n)
    | _ => _line_no self
    end in
  set_errors self
    (_errors self ++ [{| code := code; message := message; line := error_line |}]).

Definition _add_recommendation (self : Parser) (code message : string) : Parser :=
  set_recommendations self
    (_recommendations self
       ++ [{| code := code; message := message; line := _line_no self |}]).

Definition _add_notification (self : Parser) (code message : string) : Parser :=
  set_notifications self
    (_notifications self
       ++ [{| code := code; message := message; line := _line_no self |}]).

Module Msg.
Definition data_after_sig :=
  "Signed security.txt must not contain data after the signature.".
Definition signed_format_issue :=
  "Signed security.txt must start with the header '-----BEGIN PGP SIGNED MESSAGE-----'.".
Definition pgp_data_error :=
  "Signed message did not contain a correct ASCII-armored PGP block.".
Definition pgp_error := "Decoding or parsing of the pgp message failed.".
Definition invalid_line :=
  "Line must contain a field name and value, unless the line is blank or contains a comment.".
Definition prec_ws :=
  "There must be no whitespace before the field separator (colon).".
Definition no_space := "Field separator (colon) must be followed by a space.".
Definition empty_key := "Field name must not be empty.".
Definition empty_value := "Field value must not be empty.".
Definition no_uri (key : string) := "Field '" +:+ key +:+ "' value must be a URI.".
Definition no_https := "Web URI must begin with 'https://'.".
Definition invalid_lang :=
  "Value in 'Preferred-Languages' field must match one or more language tags as defined in RFC5646, separated by commas.".
Definition unknown_field (key : string) :=
  "security.txt contains an unknown field. Field " +:+ Str.dquote +:+ key
  +:+ Str.dquote
  +:+ " is either a custom field which may not be widely supported, or there is a typo in a standardised field name.".
Definition invalid_expiry :=
  "Date and time in 'Expires' field must be formatted according to ISO 8601.".
Definition long_expiry :=
  "Date and time in 'Expires' field should be less than a year into the future.".
Definition expired :=
  "Date and time in 'Expires' field must not be in the past.".
Definition no_expire := "'Expires' field must be present.".
Definition multi_expire := "'Expires' field must not appear more than once.".
Definition no_canonical_match :=
  "Web URI where security.txt is located must match with a 'Canonical' field. In case of redirecting either the first or last web URI of the redirect chain must match.".
Definition no_line_separators :=
  "Every line, including the last one, must end with either a carriage return and line feed characters or just a line feed character".
Definition no_csaf_file :=
  "All CSAF fields must point to a provider-metadata.json file.".
Definition multiple_csaf_fields :=
  "It is allowed to have more than one csaf field, however this should be removed if possible.".
Definition no_contact := "'Contact' field must appear at least once.".
Definition no_encryption :=
  "'Encryption' field should be present when 'Contact' field contains an email address.".
Definition multi_lang :=
  "'Preferred-Languages' field must not appear more than once.".
Definition not_signed := "security.txt should be digitally signed.".
Definition no_canonical :=
  "'Canonical' field should be present in a signed file.".
End Msg.

Section Methods.

Variable E : Env.

Definition _parse_expires (self : Parser) (value : string) : result Parser :=
  match dateutil_parse E value with
  | Raise ParserError =>
      Ok (_add_error self "invalid_expiry" Msg.invalid_expiry None)
  | Raise e => Raise e
  | Ok date_value =>
      let self := set_expires_date self (Some date_value) in
      if negb (Iso8601.matches value) then
        (* dateutil parses more than just iso8601 format *)
        Ok (_add_error self "invalid_expiry" Msg.invalid_expiry None)
      else
        let now := DT.with_tz (utcnow E (_line_no self)) (Some 0%Z) in
        try! max_value <- DT.replace_year now (year now + 1)%Z;
        try! too_long <- DT.gt date_value max_value;
        if too_long then
          Ok (_add_recommendation self "long_expiry" Msg.long_expiry)
        else
          try! past <- DT.lt date_value now;
          if past then Ok (_add_error self "expired" Msg.expired None)
          else Ok self
  end.

(** The loop over [self._langs]: one [invalid_lang] per invalid tag. *)
Definition check_langs (self : Parser) (langs : list string) : Parser :=
  fold_left
    (fun self lang =>
       if negb (tag_is_valid E lang)
       then _add_error self "invalid_lang" Msg.invalid_lang None
       else self)
    langs self.

(** The chain [if key in self.uri_fields: ... elif key == "expires": ...
    elif key == PREFERRED_LANGUAGES: ...] of [_parse_field]. *)
Definition check_value (self : Parser) (key value : string) : result Parser :=
  if str_in key uri_fields then
    try! scheme <- urlsplit_scheme E value;
    if String.eqb scheme EmptyString then
      Ok (_add_error self "no_uri" (Msg.no_uri key) None)
    else if String.eqb scheme "http" then
      Ok (_add_error self "no_https" Msg.no_https None)
    else Ok self
  else if String.eqb key "expires" then _parse_expires self value
  else if String.eqb key PREFERRED_LANGUAGES then
    let langs := map Str.strip (Str.split "," value) in
    Ok (check_langs (set_langs self (Some langs)) langs)
  else Ok self.

Definition _parse_field (self : Parser) (line : string)
  : result (LineDict * Parser) :=
  match Str.split1 ":" line with
  | None => Raise ValueError
  | Some (key, value) =>
      let key := Str.lower key in
      let '(self, key) :=
        if negb (String.eqb (Str.rstrip key) key)
        then (_add_error self "prec_ws" Msg.prec_ws None, Str.rstrip key)
        else (self, key) in
      let '(self, value) :=
        if Str.truthy value then
          ((if negb (Str.first_is " " value)
            then _add_error self "no_space" Msg.no_space None
            else self),
           Str.lstrip value)
        else (self, value) in
      if String.eqb key "hash" && _signed self then
        Ok (mk_line "pgp_envelope" None line, self)
      else if negb (Str.truthy key) then
        Ok (mk_line "error" None line,
            _add_error self "empty_key" Msg.empty_key None)
      else if negb (Str.truthy value) then
        Ok (mk_line "error" None line,
            _add_error self "empty_value" Msg.empty_value None)
      else
        try! self <- check_value self key value;
        let self :=
          if recommend_unknown_fields self && negb (str_in key known_fields)
          then _add_notification self "unknown_field" (Msg.unknown_field key)
          else self in
        Ok (mk_line "field" (Some key) value, values_append self key value)
  end.

Definition _parse_line (self : Parser) (line : string)
  : result (LineDict * Parser) :=
  let line := Str.rstrip line in
  if _reading_sig self then
    let self :=
      if String.eqb line END_SIGNATURE
      then set_finished_sig (set_reading_sig self false) true
      else self in
    Ok (mk_line "pgp_envelope" None line, self)
  else if Str.truthy line && _finished_sig self then
    Ok (mk_line "error" None line,
        _add_error self "data_after_sig" Msg.data_after_sig None)
  else
    (* signed content might be dash escaped *)
    let line :=
      if _signed self && negb (_reading_sig self)
         && Str.startswith line "- "
      then Str.drop 2 line else line in
    if String.eqb line BEGIN_SIGNED then
      let self :=
        if negb (bool_decide (_line_no self = Some 1))
        then _add_error self "signed_format_issue" Msg.signed_format_issue None
        else self in
      let self := set_signed self true in
      (* Check pgp formatting if signed *)
      try! self <-
        match from_blob E (_content self) with
        | Ok _ => Ok self
        | Raise ValueError =>
            Ok (_add_error self "pgp_data_error" Msg.pgp_data_error None)
        | Raise PGPError =>
            Ok (_add_error self "pgp_error" Msg.pgp_error None)
        | Raise e => Raise e
        end;
      Ok (mk_line "pgp_envelope" None line, self)
    else if String.eqb line BEGIN_SIGNATURE && _signed self then
      Ok (mk_line "pgp_envelope" None line, set_reading_sig self true)
    else if Str.startswith line "#" then
      Ok (mk_line "comment" None line, self)
    else if Str.contains ":" line then _parse_field self line
    else if Str.truthy line then
      Ok (mk_line "error" None line,
          _add_error self "invalid_line" Msg.invalid_line None)
    else Ok (mk_line "empty" None EmptyString, self).

(** [self.lines] *)
Definition lines (self : Parser) : list LineDict := _line_info self.

(** The checks of [validate_contents], one definition per [if] statement
    of the method, in the order of the source. *)

Definition check_expires_count (self : Parser) : Parser :=
  if negb (has_key self "expires") then
    _add_error self "no_expire" Msg.no_expire None
  else if 1 <? length (values_of self "expires") then
    _add_error self "multi_expire" Msg.multi_expire None
  else self.

Definition check_canonical_match (self : Parser) : Parser :=
  match _urls self with
  | Some (u :: us) =>
      if has_key self "canonical"
         && forallb (fun url => negb (str_in url (values_of self "canonical")))
              (u :: us)
      then _add_error self "no_canonical_match" Msg.no_canonical_match None
      else self
  | _ => self
  end.

(** [self.lines[-1]] raises [IndexError] on an empty list. *)
Definition check_line_separators (self : Parser) : result Parser :=
  match last (lines self) with
  | None => Raise IndexError
  | Some l =>
      if negb (String.eqb (type l) "empty") then
        Ok (_add_error self "no_line_separators" Msg.no_line_separators
              (Some (length (lines self))))
      else Ok self
  end.

Definition check_csaf (self : Parser) : Parser :=
  if has_key self "csaf" then
    let self :=
      if negb (forallb (fun v => Str.endswith v "provider-metadata.json")
                 (values_of self "csaf"))
      then _add_error self "no_csaf_file" Msg.no_csaf_file None
      else self in
    if 1 <? length (values_of self "csaf") then
      _add_recommendation self "multiple_csaf_fields" Msg.multiple_csaf_fields
    else self
  else self.

Definition check_contact (self : Parser) : Parser :=
  if negb (has_key self "contact") then
    _add_error self "no_contact" Msg.no_contact None
  else if existsb (fun v => Str.startswith v "mailto:")
            (values_of self "contact")
          && negb (has_key self "encryption")
  then _add_recommendation self "no_encryption" Msg.no_encryption
  else self.

Definition check_languages_count (self : Parser) : Parser :=
  if has_key self PREFERRED_LANGUAGES
     && (1 <? length (values_of self PREFERRED_LANGUAGES))
  then _add_error self "multi_lang" Msg.multi_lang None
  else self.

Definition check_signed (self : Parser) : Parser :=
  if negb (_signed self)
  then _add_recommendation self "not_signed" Msg.not_signed
  else self.

(** [self._values.get("canonical")] is falsy for a missing key and for
    an empty list. *)
Definition check_signed_canonical (self : Parser) : Parser :=
  if _signed self
     && negb (match _values self !! "canonical" with
              | Some (_ :: _) => true
              | _ => false
              end)
  then _add_recommendation self "no_canonical" Msg.no_canonical
  else self.

Definition validate_contents (self : Parser) : result Parser :=
  let self := check_expires_count self in
  let self := check_canonical_match self in
  try! self <- check_line_separators self;
  let self := check_csaf self in
  let self := check_contact self in
  let self := check_languages_count self in
  let self := check_signed self in
  let self := check_signed_canonical self in
  Ok self.

(** The body of the loop of [_process]: parse the line, append its
    [LineDict], count the line ([None += 1] raises [TypeError]). *)
Definition loop_body (self : Parser) (l : string) : result Parser :=
  try! (ld, self) <- _parse_line self l;
  let self := set_line_info self (_line_info self ++ [ld]) in
  match _line_no self with
  | Some n => Ok (set_line_no self (Some (n + 1)))
  | None => Raise TypeError
  end.

(** [for line in lines: ...] *)
Fixpoint for_lines (self : Parser) (ls : list string) : result Parser :=
  match ls with
  | [] => Ok self
  | l :: ls' => try! self <- loop_body self l; for_lines self ls'
  end.

Definition _process (self : Parser) : result Parser :=
  let ls := Str.split Str.LF (_content self) in
  let self := set_line_no self (Some 1) in
  try! self <- for_lines self ls;
  let self := set_line_no self None in
  validate_contents self.

(** [Parser.__init__] before the call of [_process]. *)
Definition new (content : string) (urls : urls_arg)
    (recommend_unknown_fields : bool) : Parser :=
  {| _urls := strlist_from_arg urls; _line_info := []; _errors := [];
     _recommendations := []; _notifications := []; _values := ∅;
     _langs := None; _signed := false; _reading_sig := false;
     _finished_sig := false; _content := content;
     recommend_unknown_fields := recommend_unknown_fields;
     _line_no := None; _expires_date := None |}.

Definition __init__ (content : string) (urls : urls_arg)
    (recommend_unknown_fields : bool) : result Parser :=
  _process (new content urls recommend_unknown_fields).

End Methods.

(** *** Accessors *)

Definition is_valid (self : Parser) : bool :=
  match _errors self with [] => true | _ => false end.

Definition errors (self : Parser) : list ErrorDict := _errors self.
Definition recommendations (self : Parser) : list ErrorDict :=
  _recommendations self.
Definition notifications (self : Parser) : list ErrorDict :=
  _notifications self.

(** [self._values[PREFERRED_LANGUAGES][0]] raises [IndexError] on [[]]. *)
Definition preferred_languages (self : Parser) : result (option (list string)) :=
  match _values self !! PREFERRED_LANGUAGES with
  | Some (v :: _) => Ok (Some (map Str.strip (Str.split "," v)))
  | Some [] => Raise IndexError
  | None => Ok None
  end.

(** ** A concrete environment

    Deterministic stand-ins for the libraries, used to run the parser on
    concrete documents. *)

Module Fake.

Definition is_alpha (c : ascii) : bool :=
  let n := nat_of_ascii c in
  ((65 <=? n) && (n <=? 90)) || ((97 <=? n) && (n <=? 122)).

Definition is_scheme_char (c : ascii) : bool :=
  is_alpha c || Iso8601.is_digit c
  || existsb (Ascii.eqb c) ["+"; "-"; "."]%char.

Fixpoint all_chars (p : ascii -> bool) (s : string) : bool :=
  match s with
  | EmptyString => true
  | String c s' => p c && all_chars p s'
  end.

(** The scheme is the text before the first colon when it starts with a
    letter and has scheme characters only. *)
Definition scheme_of (url : string) : result string :=
  match Str.split1 ":" url with
  | Some (String c rest, _) =>
      if is_alpha c && all_chars is_scheme_char rest
      then Ok (Str.lower (String c rest)) else Ok EmptyString
  | _ => Ok EmptyString
  end.

Definition valid_tag (tag : string) : bool :=
  str_in (Str.lower tag) ["en"; "nl"; "fr"; "de"; "es"; "en-us"; "en-gb"].

Local Open Scope Z_scope.

Definition digit_val (c : ascii) : Z := Z.of_nat (nat_of_ascii c) - 48.

(** The number written by the first [n] characters of [s]. *)
Fixpoint number (n : nat) (acc : Z) (s : string) : Z :=
  match n, s with
  | S n', String c s' => number n' (acc * 10 + digit_val c) s'
  | _, _ => acc
  end.

(** The zone at the end of a value that matches the pattern. *)
Definition zone_offset (s : string) : Z :=
  match Str.drop (String.length s - 6) s with
  | String "+" r => number 2 0 r * 3600 + number 2 0 (Str.drop 3 r) * 60
  | String "-" r => - (number 2 0 r * 3600 + number 2 0 (Str.drop 3 r) * 60)
  | _ => 0
  end.

Definition fields (s : string) (tz : option Z) : datetime :=
  {| year := number 4 0 s; month := number 2 0 (Str.drop 5 s);
     day := number 2 0 (Str.drop 8 s); hour := number 2 0 (Str.drop 11 s);
     minute := number 2 0 (Str.drop 14 s);
     second := number 2 0 (Str.drop 17 s);
     microsecond := 0; tzoffset := tz |}.

(** Reads a value that matches the pattern as an aware datetime (the
    fraction is dropped), the same text without a zone as a naive one, and
    fails on anything else, on fields that are not a date and on an offset
    of a day or more. *)
Definition parse_date (s : string) : result datetime :=
  let d :=
    if Iso8601.matches s then Some (fields s (Some (zone_offset s)))
    else if Iso8601.matches (s +:+ "Z") then Some (fields s None)
    else None in
  match d with
  | Some d =>
      if DT.check_fields d && DT.offset_ok (default 0 (tzoffset d))
      then Ok d else Raise ParserError
  | None => Raise ParserError
  end.

(** Accepts a text that has the three marker lines. *)
Definition check_blob (content : string) : result unit :=
  let ls := map Str.rstrip (Str.split Str.LF content) in
  if str_in BEGIN_SIGNED ls && str_in BEGIN_SIGNATURE ls
     && str_in END_SIGNATURE ls
  then Ok tt else Raise ValueError.

Definition at_noon (y m d : Z) : datetime :=
  {| year := y; month := m; day := d; hour := 12; minute := 0; second := 0;
     microsecond := 0; tzoffset := Some 0 |}.

(** The clock stands at noon of the given day. *)
Definition env (y m d : Z) : Env :=
  {| urlsplit_scheme := scheme_of;
     tag_is_valid := valid_tag;
     dateutil_parse := parse_date;
     from_blob := check_blob;
     utcnow := fun _ => at_noon y m d |}.

(** 1 March 2024, and the leap day before it. *)
Definition E0 : Env := env 2024 3 1.
Definition E_leap : Env := env 2024 2 29.

End Fake.

(** * The vocabulary of the properties *)

(** ** Diagnostics are only appended *)

(** [b] is [a] after some diagnostics were appended; [_langs] and
    [_expires_date], which no check reads, may differ as well. *)
Record diag_ext (a b : Parser) : Prop := {
  de_urls : _urls b = _urls a;
  de_line_info : _line_info b = _line_info a;
  de_values : _values b = _values a;
  de_signed : _signed b = _signed a;
  de_reading : _reading_sig b = _reading_sig a;
  de_finished : _finished_sig b = _finished_sig a;
  de_content : _content b = _content a;
  de_ruf : recommend_unknown_fields b = recommend_unknown_fields a;
  de_line_no : _line_no b = _line_no a;
  de_errors : _errors a `prefix_of` _errors b;
  de_recommendations : _recommendations a `prefix_of` _recommendations b;
  de_notifications : _notifications a `prefix_of` _notifications b
}.

(** ** One line *)

(** [self._values] after a line whose record is [ld]: a field record appends
    its value under its name, any other record leaves the map as it is. *)
Definition values_after (self : Parser) (ld : LineDict)
  : gmap string (list string) :=
  match field_name ld with
  | Some k => <[k := (default [] (_values self !! k) ++ [value ld])%list]> (_values self)
  | None => _values self
  end.

(** What [_parse_line] leaves alone and what it only extends. *)
Record line_ext (a : Parser) (ld : LineDict) (b : Parser) : Prop := {
  le_urls : _urls b = _urls a;
  le_line_info : _line_info b = _line_info a;
  le_content : _content b = _content a;
  le_ruf : recommend_unknown_fields b = recommend_unknown_fields a;
  le_line_no : _line_no b = _line_no a;
  le_errors : _errors a `prefix_of` _errors b;
  le_recommendations : _recommendations a `prefix_of` _recommendations b;
  le_notifications : _notifications a `prefix_of` _notifications b;
  le_values : _values b = values_after a ld;
  le_field : type ld = "field" <-> is_Some (field_name ld)
}.

(** The record [ld] is the record of the text [t]: its kind is one of the
    five, a field record carries the name (lower-cased, right-stripped) and
    the value (left-stripped) around the first colon of [t], any other
    record carries [t] itself. *)
Definition record_of (t : string) (ld : LineDict) : Prop :=
  (type ld = "field" /\
   exists k v, Str.split1 ":" t = Some (k, v)
     /\ field_name ld = Some (Str.rstrip (Str.lower k))
     /\ value ld = Str.lstrip v)
  \/ (In (type ld) ["empty"; "comment"; "error"; "pgp_envelope"]
      /\ field_name ld = None /\ value ld = t).

(** The record [ld] describes the input line [l]: it is the record of the
    right-stripped line, or of that text without its dash escape. *)
Definition describes (l : string) (ld : LineDict) : Prop :=
  record_of (Str.rstrip l) ld \/ record_of (Str.drop 2 (Str.rstrip l)) ld.

(** The moves of the envelope flags over one line. *)
Inductive envelope_step (a b : Parser) : Prop :=
| step_stay :
    _signed b = _signed a -> _reading_sig b = _reading_sig a ->
    _finished_sig b = _finished_sig a -> envelope_step a b
| step_signed :
    _reading_sig a = false -> _finished_sig a = false ->
    _signed b = true -> _reading_sig b = false -> _finished_sig b = false ->
    envelope_step a b
| step_begin_signature :
    _signed a = true -> _reading_sig a = false -> _finished_sig a = false ->
    _signed b = true -> _reading_sig b = true -> _finished_sig b = false ->
    envelope_step a b
| step_end_signature :
    _reading_sig a = true ->
    _signed b = _signed a -> _reading_sig b = false -> _finished_sig b = true ->
    envelope_step a b.

(** ** The loop *)

(** The values of the field records named [k], in the order of the
    records. *)
Definition fields_named (k : string) (lds : list LineDict) : list string :=
  map value (filter (fun ld => field_name ld = Some k) lds).

(** [self._values] holds, under each name, the values of the field records
    of that name, and has no key without a record. *)
Definition values_agree (self : Parser) : Prop :=
  forall k,
    _values self !! k
    = match fields_named k (_line_info self) with
      | [] => None
      | vs => Some vs
      end.

(** What the loop over the lines [ls] turns [a] into: one record per line, in
    the order of the lines; the line number counts the lines; diagnostics
    are only appended. *)
Record pass_ext (a : Parser) (ls : list string) (b : Parser) : Prop := {
  pe_records :
    exists lds, _line_info b = (_line_info a ++ lds)%list
                /\ Forall2 describes ls lds;
  pe_line_no :
    forall n, _line_no a = Some n -> _line_no b = Some (n + length ls);
  pe_urls : _urls b = _urls a;
  pe_content : _content b = _content a;
  pe_ruf : recommend_unknown_fields b = recommend_unknown_fields a;
  pe_errors : _errors a `prefix_of` _errors b;
  pe_recommendations : _recommendations a `prefix_of` _recommendations b;
  pe_notifications : _notifications a `prefix_of` _notifications b;
  pe_values : values_agree a -> values_agree b
}.

(** The object at the start of the loop. *)
Definition start (content : string) (urls : urls_arg) (ruf : bool) : Parser :=
  set_line_no (new content urls ruf) (Some 1).

(** ** Runs that complete *)

(** An environment whose functions raise nothing the parser does not
    catch: [urlsplit] returns, [dateutil] fails with [ParserError] only and
    reads a value that matches the pattern as an aware datetime, the clock
    never stands on a day that has no counterpart in the next year, and
    [pgpy] fails with [ValueError] or [PGPError] only. *)
Record Env_total (E : Env) : Prop := {
  urlsplit_returns : forall v, exists s, urlsplit_scheme E v = Ok s;
  dateutil_raises :
    forall v e, dateutil_parse E v = Raise e -> e = ParserError;
  dateutil_aware :
    forall v d, dateutil_parse E v = Ok d -> Iso8601.matches v = true ->
                exists off, tzoffset d = Some off /\ DT.offset_ok off = true;
  clock_next_year :
    forall n, exists m,
      DT.replace_year (DT.with_tz (utcnow E n) (Some 0%Z))
        (year (utcnow E n) + 1)%Z = Ok m;
  from_blob_raises :
    forall c e, from_blob E c = Raise e -> e = ValueError \/ e = PGPError
}.

(** ** The envelope *)

(** The flags as one of the four states of the envelope: unsigned, signed,
    reading the signature, signature finished. *)
Definition phase (self : Parser) : nat :=
  if _finished_sig self then 3
  else if _reading_sig self then 2
  else if _signed self then 1
  else 0.

(** The flags are consistent: the signature is read or finished in a signed
    document only, and not read any more once it is finished. *)
Definition envelope_wf (self : Parser) : Prop :=
  (_reading_sig self = true -> _signed self = true)
  /\ (_finished_sig self = true ->
      _signed self = true /\ _reading_sig self = false).

(** [R] holds between each element and the next. *)
Fixpoint adjacent {A} (R : A -> A -> Prop) (l : list A) : Prop :=
  match l with
  | a :: (b :: _) as t => R a b /\ adjacent R t
  | _ => True
  end.

(** How often [f] goes from false to true along [l]. *)
Fixpoint rises {A} (f : A -> bool) (l : list A) : nat :=
  match l with
  | a :: (b :: _) as t => (if negb (f a) && f b then 1 else 0) + rises f t
  | _ => 0
  end.

(** What the claim says of two consecutive states of the pass. *)
Definition flags_move (a b : Parser) : Prop :=
  (_signed a = true -> _signed b = true)
  /\ (_finished_sig a = true -> _finished_sig b = true)
  /\ ((_reading_sig a = true /\ _reading_sig b = false)
      <-> (_finished_sig a = false /\ _finished_sig b = true))
  /\ (_reading_sig a = false -> _reading_sig b = true -> _signed a = true)
  /\ phase a <= phase b <= phase a + 1.

Section Trace.

Variable E : Env.

(** The objects at the start of the loop and after each line, up to the
    end of the lines or to the line that raises. *)
Fixpoint trace (self : Parser) (ls : list string) : list Parser :=
  self ::
  match ls with
  | [] => []
  | l :: ls' =>
      match loop_body E self l with
      | Ok self' => trace self' ls'
      | Raise _ => []
      end
  end.

End Trace.

(** ** The cross-field pass *)

(** An error of the cross-field pass: it has no line number, unless one is
    given. *)
Definition document_error (code message : string) : ErrorDict :=
  {| code := code; message := message; line := None |}.

(** The map [V] and the map of [x] agree on every key but
    [preferred-languages]. *)
Definition agree_off_languages (V : gmap string (list string)) (x : Parser)
  : Prop :=
  forall k, k <> PREFERRED_LANGUAGES -> V !! k = _values x !! k.

(** The object before the cross-field pass, had only the first value [v] of
    [preferred-languages] been recorded. *)
Definition first_language_only (self : Parser) (v : string) : Parser :=
  set_values self (<[PREFERRED_LANGUAGES := [v]]> (_values self)).

(** ** Documents *)

(** A contact and an expiry date, every line terminated. *)
Definition doc_minimal : string :=
  "Contact: mailto:security@example.com
Expires: 2024-09-01T00:00:00Z
".

(** A signed document with its envelope. *)
Definition doc_signed : string :=
  "-----BEGIN PGP SIGNED MESSAGE-----
Hash: SHA256

Contact: https://example.com/contact
- Expires: 2024-09-01T00:00:00Z
-----BEGIN PGP SIGNATURE-----
iQEzBAEBCAAdFiEE
-----END PGP SIGNATURE-----
".

(** An expiry date more than a year after the clock of [Fake.E0]. *)
Definition doc_far_expiry : string :=
  "Contact: https://example.com/contact
Expires: 2030-01-01T00:00:00Z
".

(** Two Expires fields, the second one in the past. *)
Definition doc_two_expires : string :=
  "Contact: https://example.com/contact
Expires: 2024-09-01T00:00:00Z
Expires: 2020-09-01T00:00:00Z
".

(** Two lines, the last one without a line feed. *)
Definition doc_unterminated : string :=
  "Contact: https://example.com/contact
Expires: 2024-09-01T00:00:00Z".

(** A signed document whose Hash header has no space after the colon. *)
Definition doc_signed_hash : string :=
  "-----BEGIN PGP SIGNED MESSAGE-----
Hash:SHA256

Contact: https://example.com/contact
Expires: 2024-09-01T00:00:00Z
-----BEGIN PGP SIGNATURE-----
iQEzBAEBCAAdFiEE
-----END PGP SIGNATURE-----
".

(** The signed-message header on the second line. *)
Definition doc_second_header : string :=
  "# security.txt
-----BEGIN PGP SIGNED MESSAGE-----
Contact: https://example.com/contact
Expires: 2024-09-01T00:00:00Z
".

(** The signed-message header once more, inside the signature. *)
Definition doc_header_in_signature : string :=
  "-----BEGIN PGP SIGNED MESSAGE-----

Contact: https://example.com/contact
Expires: 2024-09-01T00:00:00Z
-----BEGIN PGP SIGNATURE-----
-----BEGIN PGP SIGNED MESSAGE-----
-----END PGP SIGNATURE-----
".

(** Two Preferred-Languages fields. *)
Definition doc_two_languages : string :=
  "Contact: https://example.com/contact
Expires: 2024-09-01T00:00:00Z
Preferred-Languages: en, nl
Preferred-Languages: fr
".

(** * Properties *)

(** ** Strings *)

Module StrFacts.
Import Str.

Lemma split_not_nil sep s : split sep s <> [].
Proof.
  destruct s as [|c s]; simpl; [discriminate|].
  destruct (Ascii.eqb c sep); [discriminate|].
  destruct (split sep s); discriminate.
Qed.

(** A text that ends with the separator has a final empty element. *)
Lemma split_terminated sep s :
  split sep (s +:+ String sep EmptyString) = (split sep s ++ [EmptyString])%list.
Proof.
  induction s as [|c s IH]; simpl.
  - rewrite Ascii.eqb_refl. reflexivity.
  - destruct (Ascii.eqb c sep); rewrite IH; [reflexivity|].
    pose proof (split_not_nil sep s) as H.
    destruct (split sep s); [congruence | reflexivity].
Qed.

Lemma truthy_true s : truthy s = true <-> s <> EmptyString.
Proof. destruct s; simpl; split; congruence. Qed.

Lemma truthy_false s : truthy s = false <-> s = EmptyString.
Proof. destruct s; simpl; split; congruence. Qed.

(** Only a blank text is emptied by [lstrip], and [rstrip] empties it
    as well. *)
Lemma lstrip_empty_rstrip s :
  lstrip s = EmptyString -> rstrip s = EmptyString.
Proof.
  induction s as [|c s IH]; simpl; [reflexivity|].
  destruct (isspace c) eqn:Hc; [|discriminate].
  intros H. rewrite (IH H). reflexivity.
Qed.

(** The tail of a right-stripped text is right-stripped. *)
Lemma rstrip_fixed_tail c s :
  rstrip (String c s) = String c s -> s <> EmptyString -> rstrip s = s.
Proof.
  simpl. intros H Hs.
  destruct (rstrip s) eqn:Hr.
  - destruct (isspace c); [discriminate|].
    injection H as H. congruence.
  - injection H as H. exact H.
Qed.

(** What follows the first separator of a right-stripped text is
    right-stripped. *)
Lemma split1_rstrip_fixed sep s k v :
  rstrip s = s -> split1 sep s = Some (k, v) -> v <> EmptyString ->
  rstrip v = v.
Proof.
  revert k. induction s as [|c s IH]; simpl; intros k Hs Hsp Hv;
    [discriminate|].
  destruct (Ascii.eqb c sep).
  - injection Hsp as _ <-.
    apply (rstrip_fixed_tail c); [exact Hs | exact Hv].
  - destruct (split1 sep s) as [[k' v']|] eqn:Hsp'; [|discriminate].
    injection Hsp as _ <-.
    apply (IH k'); [|reflexivity|exact Hv].
    apply (rstrip_fixed_tail c); [exact Hs|].
    intros ->. discriminate.
Qed.

(** The value of a right-stripped line stays non-empty when it is
    left-stripped. *)
Lemma lstrip_value_not_empty sep s k v :
  rstrip s = s -> split1 sep s = Some (k, v) -> v <> EmptyString ->
  lstrip v <> EmptyString.
Proof.
  intros Hs Hsp Hv He.
  pose proof (split1_rstrip_fixed _ _ _ _ Hs Hsp Hv) as Hr.
  apply lstrip_empty_rstrip in He. congruence.
Qed.

Lemma contains_split1 sep s :
  contains sep s = true -> exists k v, split1 sep s = Some (k, v).
Proof.
  induction s as [|c s IH]; simpl; [discriminate|].
  destruct (Ascii.eqb c sep); simpl; [eauto|].
  intros H. destruct (IH H) as (k & v & ->). eauto.
Qed.

End StrFacts.

(** ** Diagnostics are only appended *)

Lemma diag_ext_refl a : diag_ext a a.
Proof. constructor; reflexivity. Qed.

Lemma diag_ext_trans a b c : diag_ext a b -> diag_ext b c -> diag_ext a c.
Proof.
  intros [] []. constructor; try congruence; etransitivity; eassumption.
Qed.

Lemma diag_ext_add_error a c m n : diag_ext a (_add_error a c m n).
Proof. constructor; try reflexivity. simpl. apply prefix_app_r. reflexivity. Qed.

Lemma diag_ext_add_recommendation a c m : diag_ext a (_add_recommendation a c m).
Proof. constructor; try reflexivity. simpl. apply prefix_app_r. reflexivity. Qed.

Lemma diag_ext_add_notification a c m : diag_ext a (_add_notification a c m).
Proof. constructor; try reflexivity. simpl. apply prefix_app_r. reflexivity. Qed.

Lemma diag_ext_set_langs a x : diag_ext a (set_langs a x).
Proof. constructor; reflexivity. Qed.

Lemma diag_ext_set_expires_date a x : diag_ext a (set_expires_date a x).
Proof. constructor; reflexivity. Qed.

Create HintDb diag discriminated.
#[export] Hint Resolve diag_ext_refl diag_ext_add_error
  diag_ext_add_recommendation diag_ext_add_notification diag_ext_set_langs
  diag_ext_set_expires_date : diag.

(** Closes [diag_ext a b] when [b] is [a] under a chain of appends. *)
Ltac diag :=
  repeat first
    [ assumption
    | apply diag_ext_refl
    | (eapply diag_ext_trans; [| solve [eauto with diag]])
    ].

Section FieldChecks.

Variable E : Env.

Lemma _parse_expires_ext self v self' :
  _parse_expires E self v = Ok self' -> diag_ext self self'.
Proof.
  unfold _parse_expires, DT.gt, DT.lt, rbind. intros H.
  repeat case_match; simplify_eq; diag.
Qed.

Lemma check_langs_ext langs : forall self, diag_ext self (check_langs E self langs).
Proof.
  unfold check_langs.
  induction langs as [|l langs IH]; intros self; simpl; [diag|].
  eapply diag_ext_trans; [|apply IH].
  case_match; diag.
Qed.

Lemma check_value_ext self key v self' :
  check_value E self key v = Ok self' -> diag_ext self self'.
Proof.
  unfold check_value, rbind. intros H.
  repeat case_match; simplify_eq; diag.
  - eapply _parse_expires_ext; eassumption.
  - eapply diag_ext_trans; [|apply check_langs_ext]. diag.
Qed.

End FieldChecks.

(** ** One line *)

Lemma diag_ext_line_ext a b ld :
  diag_ext a b -> field_name ld = None -> type ld <> "field" -> line_ext a ld b.
Proof.
  intros [] Hf Ht. constructor; try assumption.
  - unfold values_after. rewrite Hf. assumption.
  - rewrite Hf. split; [congruence | intros [? ?]; discriminate].
Qed.

Lemma diag_ext_line_ext_field a b k v :
  diag_ext a b ->
  line_ext a (mk_line "field" (Some k) v) (values_append b k v).
Proof.
  intros []. constructor; simpl; try assumption.
  - unfold values_after. simpl. congruence.
  - split; eauto.
Qed.

Section ParseField.

Variable E : Env.

Lemma rstrip_key key :
  (if negb (String.eqb (Str.rstrip key) key) then Str.rstrip key else key)
  = Str.rstrip key.
Proof.
  destruct (String.eqb (Str.rstrip key) key) eqn:H; simpl; [|reflexivity].
  apply String.eqb_eq in H. congruence.
Qed.

Lemma lstrip_value v :
  (if Str.truthy v then Str.lstrip v else v) = Str.lstrip v.
Proof. destruct v; reflexivity. Qed.

Lemma _parse_field_spec self line ld self' :
  _parse_field E self line = Ok (ld, self') ->
  line_ext self ld self'
  /\ _signed self' = _signed self
  /\ _reading_sig self' = _reading_sig self
  /\ _finished_sig self' = _finished_sig self
  /\ record_of line ld.
Proof.
  unfold _parse_field.
  destruct (Str.split1 ":" line) as [[k v]|] eqn:Hsplit; [|discriminate].
  set (key := Str.lower k).
  pose proof (rstrip_key key) as Hkey.
  pose proof (lstrip_value v) as Hval.
  destruct (negb (String.eqb (Str.rstrip key) key)) eqn:Hws;
  (destruct (Str.truthy v) eqn:Hv;
     [destruct (negb (Str.first_is " " v)) eqn:Hsp|]);
  cbv beta iota zeta;
  (match goal with
   | |- context [String.eqb ?x "hash" && ?s] =>
       destruct (String.eqb x "hash" && s) eqn:Hhash
   end;
   [| match goal with
      | |- context [negb (Str.truthy ?x)] =>
          destruct (negb (Str.truthy x)) eqn:Hk
      end;
      [| match goal with
         | |- context [negb (Str.truthy ?x)] =>
             destruct (negb (Str.truthy x)) eqn:Hvv
         end;
         [| match goal with
            | |- context [check_value E ?s ?a ?b] =>
                destruct (check_value E s a b) as [s1|] eqn:Hchk;
                [apply check_value_ext in Hchk | discriminate]
            end;
            unfold rbind;
            match goal with
            | |- context [if ?c then _ else _] => destruct c
            end ]]]);
  intros [= <- <-];
  (split;
   [ first [ apply diag_ext_line_ext; [diag | reflexivity | discriminate]
           | apply diag_ext_line_ext_field; diag ]
   | split; [|split; [|split]];
     try solve [ reflexivity
               | destruct Hchk as [_ _ _ Hs Hr Hf _ _ _ _ _ _];
                 simpl in Hs, Hr, Hf; simpl; congruence ] ]).
  all: try (right; split; [simpl; auto 6 | split; reflexivity]).
  all: left; split; [reflexivity|]; exists k, v; subst key;
    split; [exact Hsplit|]; split; simpl; congruence.
Qed.

End ParseField.

Ltac prefix_tac := simpl; repeat apply prefix_app_r; reflexivity.

(** Closes [line_ext a ld b] for a record [ld] that is not a field and an
    object [b] written as assignments and appends over [a]. *)
Ltac line_ext_tac :=
  constructor; simpl;
  [ reflexivity | reflexivity | reflexivity | reflexivity | reflexivity
  | prefix_tac | prefix_tac | prefix_tac
  | reflexivity
  | split; [discriminate | intros [? ?]; discriminate] ].

Ltac record_tac := right; split; [simpl; auto 6 | split; reflexivity].

Section ParseLine.

Variable E : Env.

Lemma _parse_line_spec self l ld self' :
  _parse_line E self l = Ok (ld, self') ->
  line_ext self ld self' /\ describes l ld /\ envelope_step self self'.
Proof.
  unfold _parse_line, describes.
  destruct (_reading_sig self) eqn:Hread.
  { destruct (String.eqb (Str.rstrip l) END_SIGNATURE);
      intros [= <- <-]; (split; [line_ext_tac | split; [left; record_tac|]]).
    - apply step_end_signature; simpl; auto.
    - apply step_stay; reflexivity. }
  destruct (Str.truthy (Str.rstrip l) && _finished_sig self) eqn:Hafter.
  { intros [= <- <-]. split; [line_ext_tac | split; [left; record_tac|]].
    apply step_stay; reflexivity. }
  assert (Hfin : _finished_sig self = true -> Str.rstrip l = EmptyString).
  { intros Hf. rewrite Hf, andb_true_r in Hafter.
    apply StrFacts.truthy_false. exact Hafter. }
  set (t := if _signed self && negb false && Str.startswith (Str.rstrip l) "- "
            then Str.drop 2 (Str.rstrip l) else Str.rstrip l).
  assert (Ht : record_of t ld ->
               record_of (Str.rstrip l) ld
               \/ record_of (Str.drop 2 (Str.rstrip l)) ld).
  { subst t. destruct (_ && _ && _); auto. }
  assert (Hfin' : _finished_sig self = true -> t = EmptyString).
  { intros Hf. subst t. rewrite (Hfin Hf). destruct (_signed self); reflexivity. }
  clearbody t. clear Hfin Hafter.
  destruct (String.eqb t BEGIN_SIGNED) eqn:Hbs.
  { apply String.eqb_eq in Hbs.
    assert (Hf : _finished_sig self = false).
    { destruct (_finished_sig self); [|reflexivity].
      rewrite Hfin' in Hbs by reflexivity. discriminate. }
    unfold rbind.
    destruct (from_blob E _) as [[]|[]]; try discriminate;
      destruct (negb (bool_decide (_line_no self = Some 1)));
      intros [= <- <-];
      (split; [line_ext_tac | split; [apply Ht; record_tac|]]);
      apply step_signed; simpl; auto. }
  destruct (String.eqb t BEGIN_SIGNATURE && _signed self) eqn:Hsig.
  { apply andb_true_iff in Hsig as [Hsig Hsigned].
    apply String.eqb_eq in Hsig.
    assert (Hf : _finished_sig self = false).
    { destruct (_finished_sig self); [|reflexivity].
      rewrite Hfin' in Hsig by reflexivity. discriminate. }
    intros [= <- <-].
    split; [line_ext_tac | split; [apply Ht; record_tac|]].
    apply step_begin_signature; simpl; auto. }
  destruct (Str.startswith t "#").
  { intros [= <- <-].
    split; [line_ext_tac | split; [apply Ht; record_tac|]].
    apply step_stay; reflexivity. }
  destruct (Str.contains ":" t).
  { intros H. apply _parse_field_spec in H as (Hext & Hs & Hr & Hf & Hrec).
    split; [exact Hext | split; [apply Ht; exact Hrec|]].
    apply step_stay; assumption. }
  destruct (Str.truthy t) eqn:Htr.
  { intros [= <- <-].
    split; [line_ext_tac | split; [apply Ht; record_tac|]].
    apply step_stay; reflexivity. }
  intros [= <- <-].
  apply StrFacts.truthy_false in Htr. subst t.
  split; [line_ext_tac | split; [apply Ht; record_tac|]].
  apply step_stay; reflexivity.
Qed.

End ParseLine.

(** ** The loop *)

Lemma fields_named_app k xs ys :
  fields_named k (xs ++ ys) = (fields_named k xs ++ fields_named k ys)%list.
Proof. unfold fields_named. rewrite filter_app, map_app. reflexivity. Qed.

Lemma values_agree_step a ld b :
  values_agree a -> _values b = values_after a ld ->
  _line_info b = (_line_info a ++ [ld])%list ->
  values_agree b.
Proof.
  intros Ha Hv Hl k. rewrite Hv, Hl, fields_named_app.
  specialize (Ha k). unfold values_after.
  destruct (field_name ld) as [k'|] eqn:Hk.
  - destruct (decide (k' = k)) as [->|Hne].
    + rewrite lookup_insert_eq, Ha.
      assert (Hone : fields_named k [ld] = [value ld]).
      { unfold fields_named. rewrite filter_cons, decide_True by exact Hk.
        reflexivity. }
      rewrite Hone.
      destruct (fields_named k (_line_info a)); reflexivity.
    + rewrite lookup_insert_ne by exact Hne.
      assert (Hnone : fields_named k [ld] = []).
      { unfold fields_named. rewrite filter_cons, decide_False; [reflexivity|].
        congruence. }
      rewrite Hnone, app_nil_r. exact Ha.
  - assert (Hnone : fields_named k [ld] = []).
    { unfold fields_named. rewrite filter_cons, decide_False; [reflexivity|].
      congruence. }
    rewrite Hnone, app_nil_r. exact Ha.
Qed.

Section Loop.

Variable E : Env.

Lemma loop_body_inv a l b :
  loop_body E a l = Ok b ->
  exists ld a' n,
    _parse_line E a l = Ok (ld, a') /\ _line_no a = Some n
    /\ b = set_line_no (set_line_info a' (_line_info a' ++ [ld])) (Some (n + 1)).
Proof.
  unfold loop_body, rbind.
  destruct (_parse_line E a l) as [[ld a']|] eqn:Hp; [|discriminate].
  simpl. destruct (_line_no a') as [n|] eqn:Hn; [|discriminate].
  intros [= <-]. exists ld, a', n. split; [reflexivity|]. split; [|reflexivity].
  apply _parse_line_spec in Hp as ([] & _). congruence.
Qed.

Lemma loop_body_ext a l b :
  loop_body E a l = Ok b -> pass_ext a [l] b.
Proof.
  intros H. apply loop_body_inv in H as (ld & a' & n & Hp & Hn & ->).
  apply _parse_line_spec in Hp as ([] & Hd & _).
  constructor; simpl; try assumption.
  - exists [ld]. split; [congruence|]. constructor; [exact Hd | constructor].
  - intros m Hm. rewrite Hn in Hm. injection Hm as <-. reflexivity.
  - intros Ha. eapply values_agree_step; [exact Ha | eassumption |].
    simpl. congruence.
Qed.

Lemma pass_ext_nil a : pass_ext a [] a.
Proof.
  constructor; try reflexivity; try auto.
  - exists []. split; [rewrite app_nil_r; reflexivity | constructor].
  - intros n ->. simpl. f_equal. lia.
Qed.

Lemma pass_ext_app a xs b ys c :
  pass_ext a xs b -> pass_ext b ys c -> pass_ext a (xs ++ ys) c.
Proof.
  intros [[l1 [H1 F1]] N1 ? ? ? ? ? ? V1] [[l2 [H2 F2]] N2 ? ? ? ? ? ? V2].
  constructor; try congruence; try (etransitivity; eassumption); auto.
  - exists (l1 ++ l2)%list. split.
    + rewrite H2, H1, app_assoc. reflexivity.
    + apply Forall2_app; assumption.
  - intros n Hn. rewrite (N2 _ (N1 _ Hn)), length_app. f_equal. lia.
Qed.

Lemma for_lines_ext ls : forall a b,
  for_lines E a ls = Ok b -> pass_ext a ls b.
Proof.
  induction ls as [|l ls IH]; simpl; intros a b H.
  - injection H as <-. apply pass_ext_nil.
  - unfold rbind in H.
    destruct (loop_body E a l) as [a1|] eqn:Hb; [|discriminate].
    change (l :: ls) with ([l] ++ ls)%list.
    eapply pass_ext_app; [apply loop_body_ext; exact Hb | apply IH; exact H].
Qed.

Lemma for_lines_app xs : forall a ys,
  for_lines E a (xs ++ ys)
  = (try! b <- for_lines E a xs; for_lines E b ys).
Proof.
  induction xs as [|x xs IH]; intros a ys; simpl; [reflexivity|].
  unfold rbind at 1 3. destruct (loop_body E a x); [apply IH | reflexivity].
Qed.

End Loop.

(** ** The cross-field pass *)

Section Validate.

Lemma check_expires_count_ext a : diag_ext a (check_expires_count a).
Proof. unfold check_expires_count. repeat case_match; diag. Qed.

Lemma check_canonical_match_ext a : diag_ext a (check_canonical_match a).
Proof. unfold check_canonical_match. repeat case_match; diag. Qed.

Lemma check_line_separators_ext a b :
  check_line_separators a = Ok b -> diag_ext a b.
Proof.
  unfold check_line_separators. intros H.
  repeat case_match; simplify_eq; diag.
Qed.

Lemma check_csaf_ext a : diag_ext a (check_csaf a).
Proof. unfold check_csaf. repeat case_match; diag. Qed.

Lemma check_contact_ext a : diag_ext a (check_contact a).
Proof. unfold check_contact. repeat case_match; diag. Qed.

Lemma check_languages_count_ext a : diag_ext a (check_languages_count a).
Proof. unfold check_languages_count. repeat case_match; diag. Qed.

Lemma check_signed_ext a : diag_ext a (check_signed a).
Proof. unfold check_signed. repeat case_match; diag. Qed.

Lemma check_signed_canonical_ext a : diag_ext a (check_signed_canonical a).
Proof. unfold check_signed_canonical. repeat case_match; diag. Qed.

(** The checks after [check_line_separators]. *)
Lemma late_checks_ext a :
  diag_ext a
    (check_signed_canonical
       (check_signed (check_languages_count (check_contact (check_csaf a))))).
Proof.
  eapply diag_ext_trans; [|apply check_signed_canonical_ext].
  eapply diag_ext_trans; [|apply check_signed_ext].
  eapply diag_ext_trans; [|apply check_languages_count_ext].
  eapply diag_ext_trans; [|apply check_contact_ext].
  apply check_csaf_ext.
Qed.

Lemma early_checks_ext a :
  diag_ext a (check_canonical_match (check_expires_count a)).
Proof.
  eapply diag_ext_trans; [|apply check_canonical_match_ext].
  apply check_expires_count_ext.
Qed.

Lemma validate_contents_inv a b :
  validate_contents a = Ok b ->
  exists m,
    check_line_separators (check_canonical_match (check_expires_count a)) = Ok m
    /\ b = check_signed_canonical
             (check_signed (check_languages_count (check_contact (check_csaf m)))).
Proof.
  unfold validate_contents, rbind. intros H.
  destruct (check_line_separators _) as [m|] eqn:Hm; [|discriminate].
  injection H as <-. eauto.
Qed.

Lemma validate_contents_ext a b :
  validate_contents a = Ok b -> diag_ext a b.
Proof.
  intros H. apply validate_contents_inv in H as (m & Hm & ->).
  eapply diag_ext_trans; [|apply late_checks_ext].
  eapply diag_ext_trans; [apply early_checks_ext|].
  apply check_line_separators_ext. exact Hm.
Qed.

(** The cross-field pass fails on an object without records only. *)
Lemma validate_contents_total a :
  _line_info a <> [] -> exists b, validate_contents a = Ok b.
Proof.
  intros Hne. unfold validate_contents, rbind, check_line_separators, lines.
  rewrite (de_line_info _ _ (early_checks_ext a)).
  destruct (last (_line_info a)) as [l|] eqn:Hl.
  - destruct (negb _); eauto.
  - apply last_None in Hl. contradiction.
Qed.

End Validate.

(** ** The whole run *)

Section Run.

Variable E : Env.

Lemma __init___inv content urls ruf p :
  __init__ E content urls ruf = Ok p ->
  exists s,
    for_lines E (start content urls ruf) (Str.split Str.LF content) = Ok s
    /\ validate_contents (set_line_no s None) = Ok p.
Proof.
  unfold __init__, _process, rbind. simpl _content. fold (start content urls ruf).
  destruct (for_lines E _ _) as [s|] eqn:Hs; [|discriminate].
  intros H. eauto.
Qed.

Lemma values_agree_start content urls ruf :
  values_agree (start content urls ruf).
Proof. intros k. simpl. apply lookup_empty. Qed.

(** A completed run: the records, the values and the diagnostics of the
    loop, then diagnostics of the cross-field pass. *)
Lemma run_facts content urls ruf p :
  __init__ E content urls ruf = Ok p ->
  exists s,
    for_lines E (start content urls ruf) (Str.split Str.LF content) = Ok s
    /\ validate_contents (set_line_no s None) = Ok p
    /\ Forall2 describes (Str.split Str.LF content) (_line_info s)
    /\ _line_info p = _line_info s
    /\ _values p = _values s
    /\ _signed p = _signed s
    /\ values_agree p
    /\ _errors s `prefix_of` _errors p
    /\ _recommendations s `prefix_of` _recommendations p
    /\ _notifications s `prefix_of` _notifications p.
Proof.
  intros H. apply __init___inv in H as (s & Hs & Hv).
  exists s. split; [exact Hs|]. split; [exact Hv|].
  apply for_lines_ext in Hs as [(lds & Hl & Hf) _ _ _ _ _ _ _ Hag].
  apply validate_contents_ext in Hv as [_ Hli Hva Hsg _ _ _ _ _ He Hr Hn].
  simpl in *.
  specialize (Hag (values_agree_start _ _ _)).
  repeat split; try assumption.
  - rewrite Hl. exact Hf.
  - intros k. rewrite Hva, Hli. apply Hag.
Qed.

End Run.

(** ** Runs that complete *)

Section Total.

Variable E : Env.
Hypothesis HE : Env_total E.

Lemma _parse_expires_total self v : exists self', _parse_expires E self v = Ok self'.
Proof.
  unfold _parse_expires.
  destruct (dateutil_parse E v) as [d|e] eqn:Hd.
  - destruct (negb (Iso8601.matches v)) eqn:Hm; [eauto|].
    apply negb_false_iff in Hm.
    destruct (dateutil_aware E HE v d Hd Hm) as (off & Hoff & Hok).
    destruct (clock_next_year E HE (_line_no self)) as (m & Hm').
    cbv zeta. cbn [year DT.with_tz _line_no set_expires_date].
    rewrite Hm'. unfold rbind.
    assert (Htz : tzoffset m = Some 0%Z).
    { unfold DT.replace_year in Hm'. destruct (DT.check_fields _); [|discriminate].
      injection Hm' as <-. reflexivity. }
    unfold DT.gt, DT.lt, DT.cmp, rbind. rewrite Hoff, Htz, Hok. simpl.
    destruct (_ ?= _)%Z; eauto; destruct (_ ?= _)%Z; eauto.
  - rewrite (dateutil_raises E HE v e Hd). eauto.
Qed.

Lemma check_value_total self k v : exists self', check_value E self k v = Ok self'.
Proof.
  unfold check_value.
  destruct (str_in k uri_fields).
  - destruct (urlsplit_returns E HE v) as (s & ->). unfold rbind.
    repeat case_match; eauto.
  - destruct (String.eqb k "expires"); [apply _parse_expires_total|].
    destruct (String.eqb k PREFERRED_LANGUAGES); eauto.
Qed.

Lemma _parse_field_total self line :
  Str.contains ":" line = true -> exists r, _parse_field E self line = Ok r.
Proof.
  intros Hc. apply StrFacts.contains_split1 in Hc as (k & v & Hsp).
  unfold _parse_field. rewrite Hsp.
  repeat (case_match; eauto).
  all: match goal with
       | |- context [check_value E ?s ?a ?b] =>
           destruct (check_value_total s a b) as (s' & ->)
       end; unfold rbind; eauto.
Qed.

Lemma _parse_line_total self l : exists r, _parse_line E self l = Ok r.
Proof.
  unfold _parse_line.
  destruct (_reading_sig self); [eauto|].
  destruct (_ && _finished_sig self); [eauto|].
  match goal with |- context [String.eqb ?t BEGIN_SIGNED] => generalize t end.
  intros t.
  destruct (String.eqb t BEGIN_SIGNED).
  { destruct (from_blob E _) as [[]|e] eqn:Hb; unfold rbind; [eauto|].
    destruct (from_blob_raises E HE _ _ Hb) as [-> | ->]; eauto. }
  destruct (_ && _); [eauto|].
  destruct (Str.startswith t "#"); [eauto|].
  destruct (Str.contains ":" t) eqn:Hc; [apply _parse_field_total; exact Hc|].
  destruct (Str.truthy t); eauto.
Qed.

Lemma loop_body_total self l n :
  _line_no self = Some n ->
  exists self', loop_body E self l = Ok self' /\ _line_no self' = Some (n + 1).
Proof.
  intros Hn. unfold loop_body.
  destruct (_parse_line_total self l) as ([ld s] & Hp). rewrite Hp.
  apply _parse_line_spec in Hp as ([_ _ _ _ Hln _ _ _ _ _] & _).
  unfold rbind. simpl. rewrite Hln, Hn. eauto.
Qed.

Lemma for_lines_total ls : forall self n,
  _line_no self = Some n -> exists self', for_lines E self ls = Ok self'.
Proof.
  induction ls as [|l ls IH]; intros self n Hn; simpl; [eauto|].
  destruct (loop_body_total self l n Hn) as (s & -> & Hs).
  unfold rbind. eapply IH. exact Hs.
Qed.

Lemma __init___total content urls ruf :
  exists p, __init__ E content urls ruf = Ok p.
Proof.
  unfold __init__, _process. simpl _content.
  destruct (for_lines_total (Str.split Str.LF content)
              (set_line_no (new content urls ruf) (Some 1)) 1 eq_refl)
    as (s & Hs).
  rewrite Hs. unfold rbind.
  apply validate_contents_total. simpl.
  apply for_lines_ext in Hs as [(lds & -> & Hf) _ _ _ _ _ _ _ _].
  simpl. intros ->. inversion Hf as [Hnil|]; subst.
  symmetry in Hnil. exact (StrFacts.split_not_nil _ _ Hnil).
Qed.

End Total.

(** ** The concrete environment completes every run *)

Module FakeFacts.
Import Fake.

Lemma parse_date_raises v e : parse_date v = Raise e -> e = ParserError.
Proof. unfold parse_date. repeat case_match; congruence. Qed.

Lemma parse_date_aware v d :
  parse_date v = Ok d -> Iso8601.matches v = true ->
  exists off, tzoffset d = Some off /\ DT.offset_ok off = true.
Proof.
  unfold parse_date. intros H Hm. rewrite Hm in H.
  destruct (DT.check_fields _ && _) eqn:Hc; [|discriminate].
  injection H as <-. apply andb_true_iff in Hc as [_ Hc].
  simpl in *. eauto.
Qed.

Lemma check_blob_raises c e :
  check_blob c = Raise e -> e = ValueError \/ e = PGPError.
Proof. unfold check_blob. case_match; [discriminate|]. intros [= <-]. auto. Qed.

Lemma scheme_of_returns v : exists s, scheme_of v = Ok s.
Proof. unfold scheme_of. repeat case_match; eauto. Qed.

Lemma E0_total : Env_total E0.
Proof.
  constructor; simpl.
  - apply scheme_of_returns.
  - apply parse_date_raises.
  - apply parse_date_aware.
  - intros _. eexists. reflexivity.
  - apply check_blob_raises.
Qed.

End FakeFacts.

(** * The claims *)

(** ** C1: one record per line, in the order of the lines *)

Section C1.

Variable E : Env.

(** C1. For every document, a run that completes leaves exactly one
    [LineDict] per input line, the i-th record describing the i-th line
    (whatever its kind, [error] included), where the input lines are the
    text split on the line feed, with a final empty element when the text
    ends with one; and the run completes in every environment that raises
    nothing the parser does not catch. *)
Theorem one_record_per_line (content : string) (urls : urls_arg) (ruf : bool) :
  (forall p, __init__ E content urls ruf = Ok p ->
     length (lines p) = length (Str.split Str.LF content)
     /\ Forall2 describes (Str.split Str.LF content) (lines p))
  /\ Str.split Str.LF (content +:+ String Str.LF EmptyString)
     = (Str.split Str.LF content ++ [EmptyString])%list
  /\ (Env_total E -> exists p, __init__ E content urls ruf = Ok p).
Proof.
  split; [|split].
  - intros p H.
    apply run_facts in H as (s & _ & _ & Hf & Hl & _).
    unfold lines. rewrite Hl. split; [|exact Hf].
    symmetry. eapply Forall2_length. exact Hf.
  - apply StrFacts.split_terminated.
  - intros HE. apply __init___total. exact HE.
Qed.

End C1.

Lemma one_record_per_line_witness :
  exists p, __init__ Fake.E0 doc_minimal UrlNone true = Ok p
            /\ length (lines p) = 3
            /\ Forall2 describes (Str.split Str.LF doc_minimal) (lines p).
Proof.
  destruct (one_record_per_line Fake.E0 doc_minimal UrlNone true)
    as (Hrun & _ & Htotal).
  destruct (Htotal FakeFacts.E0_total) as (p & Hp).
  exists p. split; [exact Hp|].
  destruct (Hrun p Hp) as (Hlen & Hf). split; [|exact Hf].
  rewrite Hlen. reflexivity.
Defined.

(** ** C2: the envelope flags move one way *)

Section TraceFacts.

Variable E : Env.

Lemma trace_head self ls : exists t, trace E self ls = self :: t.
Proof. destruct ls; simpl; eauto. Qed.

(** A loop that completes ends in the last state of its trace. *)
Lemma trace_last ls : forall self self',
  for_lines E self ls = Ok self' ->
  last (trace E self ls) = Some self' /\ length (trace E self ls) = S (length ls).
Proof.
  induction ls as [|l ls IH]; simpl; intros self self' H.
  - injection H as <-. auto.
  - unfold rbind in H. destruct (loop_body E self l) as [s|]; [|discriminate].
    destruct (IH _ _ H) as [Hl Hn]. rewrite Hn. split; [|reflexivity].
    destruct (trace_head s ls) as (t & Ht). rewrite Ht in *.
    rewrite last_cons. rewrite Hl. reflexivity.
Qed.

Lemma loop_body_envelope a l b :
  loop_body E a l = Ok b -> envelope_step a b.
Proof.
  intros H. apply loop_body_inv in H as (ld & a' & n & Hp & _ & ->).
  apply _parse_line_spec in Hp as (_ & _ & Hs).
  destruct Hs; [apply step_stay | apply step_signed
               | apply step_begin_signature | apply step_end_signature];
    simpl; assumption.
Qed.

Lemma envelope_step_wf a b :
  envelope_step a b -> envelope_wf a -> envelope_wf b.
Proof.
  unfold envelope_wf.
  intros [Hs Hr Hf | Hr Hf Hs' Hr' Hf' | Hs Hr Hf Hs' Hr' Hf' | Hr Hs' Hr' Hf']
         [H1 H2]; rewrite ?Hs, ?Hr, ?Hf, ?Hs', ?Hr', ?Hf' in *;
    try tauto; try (split; intros; try split; congruence).
Qed.

Lemma envelope_step_flags a b :
  envelope_step a b -> envelope_wf a -> flags_move a b.
Proof.
  unfold envelope_wf, flags_move, phase.
  intros [Hs Hr Hf | Hr Hf Hs' Hr' Hf' | Hs Hr Hf Hs' Hr' Hf' | Hr Hs' Hr' Hf']
         [H1 H2];
    destruct (_signed a) eqn:Ea, (_reading_sig a) eqn:Eb,
             (_finished_sig a) eqn:Ec;
    rewrite ?Hs, ?Hr, ?Hf, ?Hs', ?Hr', ?Hf' in *;
    try discriminate;
    try (destruct H1; [reflexivity|]); try (destruct H2 as [? ?]; [reflexivity|]);
    try discriminate;
    repeat split; intros; try congruence; try tauto; try lia;
    try (destruct H1; auto; congruence);
    try (destruct H2 as [? ?]; auto; congruence).
Qed.

Lemma trace_wf ls : forall self,
  envelope_wf self -> Forall envelope_wf (trace E self ls).
Proof.
  induction ls as [|l ls IH]; simpl; intros self Hwf.
  - constructor; [exact Hwf | constructor].
  - constructor; [exact Hwf|].
    destruct (loop_body E self l) as [s|] eqn:Hb; [|constructor].
    apply IH. eapply envelope_step_wf; [|exact Hwf].
    eapply loop_body_envelope. exact Hb.
Qed.

Lemma trace_flags ls : forall self,
  envelope_wf self -> adjacent flags_move (trace E self ls).
Proof.
  induction ls as [|l ls IH]; simpl; intros self Hwf; [exact I|].
  destruct (loop_body E self l) as [s|] eqn:Hb; [|exact I].
  apply loop_body_envelope in Hb.
  destruct (trace_head s ls) as (t & Ht).
  pose proof (IH s (envelope_step_wf _ _ Hb Hwf)) as IHs.
  rewrite Ht in *. split; [|exact IHs].
  apply envelope_step_flags; assumption.
Qed.

End TraceFacts.

(** A flag that a state [done] rules out from rising again rises at most
    once. *)
Lemma rises_once {A} (R : A -> A -> Prop) (f done : A -> bool) :
  (forall a b, R a b -> done a = true -> done b = true) ->
  (forall a b, R a b -> done a = true -> negb (f a) && f b = false) ->
  (forall a b, R a b -> negb (f a) && f b = true -> done b = true) ->
  forall l, adjacent R l ->
    rises f l <= match l with
                 | a :: _ => if done a then 0 else 1
                 | [] => 0
                 end.
Proof.
  intros Hkeep Hno Hset l. induction l as [|a [|b t] IH]; simpl.
  - lia.
  - intros _. destruct (done a); lia.
  - intros [Hab Ht]. specialize (IH Ht). simpl in IH.
    destruct (done a) eqn:Da.
    + rewrite (Hno _ _ Hab Da). rewrite (Hkeep _ _ Hab Da) in IH. lia.
    + destruct (negb (f a) && f b) eqn:Hrise; [|destruct (done b); lia].
      rewrite (Hset _ _ Hab Hrise) in IH. lia.
Qed.

Lemma adjacent_and {A} (R : A -> A -> Prop) (P : A -> Prop) l :
  adjacent R l -> Forall P l -> adjacent (fun a b => R a b /\ P a /\ P b) l.
Proof.
  induction l as [|a [|b t] IH]; simpl; intros HR HP; try exact I.
  destruct HR as [Hab Ht]. inversion HP as [|? ? Pa HPt]; subst.
  inversion HPt as [|? ? Pb _]; subst.
  split; [auto | apply IH; assumption].
Qed.

Lemma rises_flags (l : list Parser) :
  adjacent flags_move l -> Forall envelope_wf l ->
  rises _signed l <= 1 /\ rises _reading_sig l <= 1 /\ rises _finished_sig l <= 1.
Proof.
  intros Hadj Hwf.
  pose proof (adjacent_and _ _ _ Hadj Hwf) as H.
  split; [|split].
  - etransitivity;
      [apply (rises_once _ _signed _signed) with (l := l) (4 := H)|].
    + intros a b ((Hs & _) & _) Ha. auto.
    + intros a b _ Ha. rewrite Ha. reflexivity.
    + intros a b _ Hr. apply andb_true_iff in Hr. tauto.
    + destruct l; [lia|]. destruct (_signed _); lia.
  - etransitivity;
      [apply (rises_once _ _reading_sig
                (fun p => _reading_sig p || _finished_sig p))
         with (l := l) (4 := H)|].
    + intros a b ((_ & Hf & Hrf & _) & _ & _) Ha.
      apply orb_true_iff in Ha as [Ha|Ha].
      * destruct (_reading_sig b) eqn:Hb; [reflexivity|].
        simpl. apply Hrf. auto.
      * rewrite (Hf Ha). apply orb_true_r.
    + intros a b ((_ & Hf & _ & _ & _) & (_ & Wa) & (_ & Wb)) Ha.
      apply orb_true_iff in Ha as [Ha|Ha]; [rewrite Ha; reflexivity|].
      destruct (Wb (Hf Ha)) as [_ ->]. apply andb_false_r.
    + intros a b _ Hr. apply andb_true_iff in Hr as [_ ->]. reflexivity.
    + destruct l; [lia|]. destruct (_ || _); lia.
  - etransitivity;
      [apply (rises_once _ _finished_sig _finished_sig) with (l := l) (4 := H)|].
    + intros a b ((_ & Hf & _) & _) Ha. auto.
    + intros a b _ Ha. rewrite Ha. reflexivity.
    + intros a b _ Hr. apply andb_true_iff in Hr. tauto.
    + destruct l; [lia|]. destruct (_finished_sig _); lia.
Qed.

Section C2.

Variable E : Env.

(** After the signature, a line that is not blank is an error and moves
    nothing but the list of errors. *)
Lemma data_after_signature self l :
  _finished_sig self = true -> _reading_sig self = false ->
  Str.rstrip l <> EmptyString ->
  _parse_line E self l
  = Ok (mk_line "error" None (Str.rstrip l),
        _add_error self "data_after_sig" Msg.data_after_sig None).
Proof.
  intros Hf Hr Hl. unfold _parse_line. rewrite Hr, Hf.
  apply StrFacts.truthy_true in Hl. rewrite Hl. reflexivity.
Qed.

(** C2. Along the states of the line-by-line pass of any document the
    three flags are consistent and move one way: [_signed] and
    [_finished_sig] are never unset, [_reading_sig] ends exactly on the
    line that sets [_finished_sig], [_reading_sig] is set only when
    [_signed] already holds, the envelope advances by at most one state
    per line, each flag is set at most once, and once [_finished_sig]
    holds a line that is not blank only appends a [data_after_sig] error
    and is recorded as kind [error]. *)
Theorem envelope_monotonic (content : string) (urls : urls_arg) (ruf : bool)
    (ls : list string) :
  let t := trace E (start content urls ruf) ls in
  Forall envelope_wf t
  /\ adjacent flags_move t
  /\ rises _signed t <= 1
  /\ rises _reading_sig t <= 1
  /\ rises _finished_sig t <= 1
  /\ (forall self l,
        In self t -> _finished_sig self = true ->
        Str.rstrip l <> EmptyString ->
        _parse_line E self l
        = Ok (mk_line "error" None (Str.rstrip l),
              _add_error self "data_after_sig" Msg.data_after_sig None)).
Proof.
  intros t.
  assert (Hstart : envelope_wf (start content urls ruf)).
  { split; simpl; discriminate. }
  pose proof (trace_wf E ls _ Hstart) as Hwf.
  pose proof (trace_flags E ls _ Hstart) as Hadj.
  fold t in Hwf, Hadj.
  split; [exact Hwf|]. split; [exact Hadj|].
  destruct (rises_flags t Hadj Hwf) as (H1 & H2 & H3).
  repeat (split; [assumption|]).
  intros self l Hin Hf Hl.
  rewrite Forall_forall in Hwf. apply list_elem_of_In in Hin.
  destruct (Hwf self Hin) as [_ Hw]. destruct (Hw Hf) as [_ Hr].
  apply data_after_signature; assumption.
Qed.

End C2.

(** The pass over [doc_signed] visits the four states in their order. *)
Example envelope_trace_signed :
  map phase (trace Fake.E0 (start doc_signed UrlNone true)
               (Str.split Str.LF doc_signed))
  = [0; 1; 1; 1; 1; 1; 2; 2; 3; 3].
Proof. vm_compute. reflexivity. Qed.

(** ** C3: the Expires value *)

Section C3.

Variable E : Env.

(** The outcomes of [_parse_expires] when the clock has a counterpart in
    the next year and the comparisons are defined: a value [dateutil]
    rejects and a value that does not match the pattern give
    [invalid_expiry] and nothing else; otherwise a timestamp after
    [max_value] gives [long_expiry], one before [now] gives [expired], and
    one in between gives nothing. *)
Lemma _parse_expires_cases (self : Parser) (v : string) :
  (dateutil_parse E v = Raise ParserError ->
   _parse_expires E self v
   = Ok (_add_error self "invalid_expiry" Msg.invalid_expiry None))
  /\ (forall d, dateutil_parse E v = Ok d -> Iso8601.matches v = false ->
      _parse_expires E self v
      = Ok (_add_error (set_expires_date self (Some d))
              "invalid_expiry" Msg.invalid_expiry None))
  /\ (forall d max_value c1 c2,
      let now := DT.with_tz (utcnow E (_line_no self)) (Some 0%Z) in
      dateutil_parse E v = Ok d -> Iso8601.matches v = true ->
      DT.replace_year now (year now + 1)%Z = Ok max_value ->
      DT.cmp d max_value = Ok c1 -> DT.cmp d now = Ok c2 ->
      _parse_expires E self v
      = Ok (let self := set_expires_date self (Some d) in
            match c1, c2 with
            | Gt, _ => _add_recommendation self "long_expiry" Msg.long_expiry
            | _, Lt => _add_error self "expired" Msg.expired None
            | _, _ => self
            end)).
Proof.
  unfold _parse_expires. split; [|split].
  - intros ->. reflexivity.
  - intros d -> ->. reflexivity.
  - intros d max_value c1 c2 -> -> Hmax H1 H2.
    simpl negb. cbv iota zeta.
    cbn [_line_no set_expires_date]. rewrite Hmax.
    unfold rbind, DT.gt, DT.lt, rbind. rewrite H1, H2.
    destruct c1, c2; reflexivity.
Qed.

End C3.

(** C3, at the input where the code departs from it. On 29 February the
    value [2030-01-01T00:00:00Z] parses and matches the pattern, and on
    1 March the same document gets its [long_expiry] recommendation; but on
    29 February [now.replace(year=now.year + 1)] names a day that does not
    exist: [_parse_expires] raises [ValueError] and so does the run, instead
    of giving a [long_expiry] recommendation. *)
Theorem expires_on_leap_day_raises :
  let v := "2030-01-01T00:00:00Z" in
  Iso8601.matches v = true
  /\ (exists d, dateutil_parse Fake.E_leap v = Ok d)
  /\ _parse_expires Fake.E_leap (start doc_far_expiry UrlNone true) v
     = Raise ValueError
  /\ __init__ Fake.E_leap doc_far_expiry UrlNone true = Raise ValueError
  /\ (exists p, __init__ Fake.E0 doc_far_expiry UrlNone true = Ok p
                /\ map code (recommendations p) = ["long_expiry"; "not_signed"]).
Proof.
  cbv zeta. split; [reflexivity|]. split; [eexists; vm_compute; reflexivity|].
  split; [vm_compute; reflexivity|]. split; [vm_compute; reflexivity|].
  eexists. split; [vm_compute; reflexivity|]. vm_compute. reflexivity.
Qed.

(** ** C4: the count of Expires fields *)

Lemma diag_ext_In_errors a b e :
  diag_ext a b -> In e (_errors a) -> In e (_errors b).
Proof.
  intros [_ _ _ _ _ _ _ _ _ [k ->] _ _] H. apply in_or_app. auto.
Qed.

Lemma prefix_In {A} (l1 l2 : list A) x : l1 `prefix_of` l2 -> In x l1 -> In x l2.
Proof. intros [k ->] H. apply in_or_app. auto. Qed.

Section C4.

Variable E : Env.

Lemma check_expires_count_errors self :
  _line_no self = None ->
  (_values self !! "expires" = None ->
   In (document_error "no_expire" Msg.no_expire)
      (_errors (check_expires_count self)))
  /\ (forall vs, _values self !! "expires" = Some vs -> 1 < length vs ->
      In (document_error "multi_expire" Msg.multi_expire)
         (_errors (check_expires_count self))).
Proof.
  intros Hn. unfold check_expires_count, has_key, values_of, document_error.
  split.
  - intros ->. simpl. rewrite Hn. apply in_or_app. right. left. reflexivity.
  - intros vs -> Hlen. simpl.
    apply Nat.ltb_lt in Hlen. rewrite Hlen. simpl. rewrite Hn.
    apply in_or_app. right. left. reflexivity.
Qed.

(** C4. After the cross-field pass of a completed run, a document with no
    recorded [expires] value (no key in [_values], that is no field record
    of that name) has the [no_expire] error, and a document with more
    than one has the [multi_expire] error; both come in addition to the
    diagnostics of the line-by-line pass, which are all kept. *)
Theorem expires_count_errors (content : string) (urls : urls_arg)
    (ruf : bool) (p : Parser) :
  __init__ E content urls ruf = Ok p ->
  (_values p !! "expires" = None
   <-> fields_named "expires" (lines p) = [])
  /\ (_values p !! "expires" = None ->
      In (document_error "no_expire" Msg.no_expire) (errors p))
  /\ (forall vs, _values p !! "expires" = Some vs -> 1 < length vs ->
      In (document_error "multi_expire" Msg.multi_expire) (errors p))
  /\ (1 < length (fields_named "expires" (lines p)) ->
      In (document_error "multi_expire" Msg.multi_expire) (errors p))
  /\ exists s,
       for_lines E (start content urls ruf) (Str.split Str.LF content) = Ok s
       /\ _errors s `prefix_of` errors p
       /\ _recommendations s `prefix_of` recommendations p
       /\ _notifications s `prefix_of` notifications p.
Proof.
  intros H.
  apply run_facts in H
    as (s & Hs & Hv & _ & Hl & Hval & _ & Hag & He & Hr & Hn).
  pose proof (Hag "expires") as Hexp. unfold lines.
  assert (Hcount :
    (_values p !! "expires" = None ->
     In (document_error "no_expire" Msg.no_expire) (errors p))
    /\ (forall vs, _values p !! "expires" = Some vs -> 1 < length vs ->
        In (document_error "multi_expire" Msg.multi_expire) (errors p))).
  { apply validate_contents_inv in Hv as (m & Hm & ->).
    destruct (check_expires_count_errors (set_line_no s None) eq_refl)
      as [H1 H2].
    assert (Hkeep : forall e,
      In e (_errors (check_expires_count (set_line_no s None))) ->
      In e (errors (check_signed_canonical (check_signed
             (check_languages_count (check_contact (check_csaf m))))))).
    { intros e He'. eapply diag_ext_In_errors; [apply late_checks_ext|].
      eapply diag_ext_In_errors;
        [apply check_line_separators_ext; exact Hm|].
      eapply diag_ext_In_errors; [apply check_canonical_match_ext|].
      exact He'. }
    rewrite Hval. split.
    - intros Hnone. apply Hkeep, H1. exact Hnone.
    - intros vs Hsome Hlen. apply Hkeep, (H2 vs); assumption. }
  destruct Hcount as [Hc1 Hc2].
  split; [|split; [exact Hc1|split; [exact Hc2|split]]].
  - rewrite Hexp. destruct (fields_named _ _); split; congruence.
  - intros Hlen. rewrite Hexp in Hc2.
    destruct (fields_named "expires" (_line_info p)) as [|v vs] eqn:Hf;
      [simpl in Hlen; lia|].
    apply (Hc2 (v :: vs)); [reflexivity | exact Hlen].
  - exists s. repeat split; assumption.
Qed.

End C4.

Lemma expires_count_errors_witness :
  exists p,
    __init__ Fake.E0 doc_two_expires UrlNone true = Ok p
    /\ In (document_error "multi_expire" Msg.multi_expire) (errors p)
    /\ map code (errors p) = ["expired"; "multi_expire"].
Proof.
  assert (Hrun : exists p, __init__ Fake.E0 doc_two_expires UrlNone true = Ok p)
    by (eexists; vm_compute; reflexivity).
  destruct Hrun as (p & Hp). exists p. split; [exact Hp|].
  destruct (expires_count_errors _ _ _ _ _ Hp) as (_ & _ & _ & Hmulti & _).
  vm_compute in Hp. injection Hp as <-.
  split; [apply Hmulti; vm_compute; lia | vm_compute; reflexivity].
Defined.

(** ** C5: the line separator of the last line *)

Section C5.

Variable E : Env.

(** C5, amended. For every completed run whose last record is not of kind
    [empty], the cross-field pass appends a [no_line_separators] error
    whose line number is the number of the last line, that is the number
    of input lines ([len(self.lines)], not one past it). *)
Theorem no_line_separators_error (content : string) (urls : urls_arg)
    (ruf : bool) (p : Parser) (l : LineDict) :
  __init__ E content urls ruf = Ok p ->
  last (lines p) = Some l ->
  type l <> "empty" ->
  In {| code := "no_line_separators"; message := Msg.no_line_separators;
        line := Some (length (Str.split Str.LF content)) |} (errors p).
Proof.
  intros H Hlast Hty.
  pose proof H as Hlen.
  apply one_record_per_line in Hlen as [Hlen _]. rewrite <- Hlen.
  apply run_facts in H as (s & _ & Hv & _ & Hl & _).
  unfold lines in *. rewrite Hl in *.
  apply validate_contents_inv in Hv as (m & Hm & ->).
  eapply diag_ext_In_errors; [apply late_checks_ext|].
  pose proof (early_checks_ext (set_line_no s None)) as Hearly.
  unfold check_line_separators, lines in Hm.
  rewrite (de_line_info _ _ Hearly) in Hm. simpl _line_info in Hm.
  rewrite Hlast in Hm.
  assert (Hne : negb (String.eqb (type l) "empty") = true).
  { apply negb_true_iff, String.eqb_neq. exact Hty. }
  rewrite Hne in Hm. injection Hm as <-.
  unfold _add_error. simpl. apply in_or_app. right. left.
  destruct (length (_line_info s)) eqn:Hn; [|reflexivity].
  apply length_zero_iff_nil in Hn. rewrite Hn in Hlast. discriminate.
Qed.

End C5.

Lemma no_line_separators_error_witness :
  exists p l,
    __init__ Fake.E0 doc_unterminated UrlNone true = Ok p
    /\ last (lines p) = Some l
    /\ In {| code := "no_line_separators"; message := Msg.no_line_separators;
             line := Some 2 |} (errors p).
Proof.
  assert (Hrun : exists p, __init__ Fake.E0 doc_unterminated UrlNone true = Ok p)
    by (eexists; vm_compute; reflexivity).
  destruct Hrun as (p & Hp).
  assert (Hlast : exists l, last (lines p) = Some l /\ type l <> "empty").
  { pose proof Hp as Hp'. vm_compute in Hp'. injection Hp' as <-.
    eexists. split; [vm_compute; reflexivity | vm_compute; discriminate]. }
  destruct Hlast as (l & Hlast & Hty).
  exists p, l. split; [exact Hp|]. split; [exact Hlast|].
  exact (no_line_separators_error Fake.E0 doc_unterminated UrlNone true p l
           Hp Hlast Hty).
Defined.

(** C5 as stated fails: the document of two lines without a final line
    feed has a last record of kind [field], and its only
    [no_line_separators] error carries line 2, the last line, not line 3. *)
Lemma no_line_separators_counterexample :
  exists p l,
    __init__ Fake.E0 doc_unterminated UrlNone true = Ok p
    /\ length (Str.split Str.LF doc_unterminated) = 2
    /\ last (lines p) = Some l /\ type l = "field"
    /\ (forall e, In e (errors p) -> code e = "no_line_separators" ->
                  line e = Some 2)
    /\ ~ In {| code := "no_line_separators"; message := Msg.no_line_separators;
               line := Some (2 + 1) |} (errors p).
Proof.
  eexists. eexists. split; [vm_compute; reflexivity|].
  split; [vm_compute; reflexivity|].
  split; [vm_compute; reflexivity|].
  split; [vm_compute; reflexivity|].
  assert (Hall : forall e,
    In e (errors (match __init__ Fake.E0 doc_unterminated UrlNone true with
                  | Ok p => p
                  | Raise _ => new EmptyString UrlNone true
                  end)) ->
    code e = "no_line_separators" -> line e = Some 2).
  { vm_compute. intros e [<- | []] _. reflexivity. }
  split.
  - exact Hall.
  - intros Hin. apply Hall in Hin; [discriminate | reflexivity].
Qed.

(** ** C6: a value that does not start with a space *)

Section C6.

Variable E : Env.

(** C6. A field line (a right-stripped line with a colon, a name that is
    not empty and is not the [Hash] header of a signed document) whose
    value is not empty and does not begin with a space gets a [no_space]
    error with the number of the line, and whenever its checks return,
    the line is recorded all the same: the record is a field record, and
    the left-stripped value is appended to [_values] under the lower-cased
    (and right-stripped) name. *)
Theorem no_space_still_recorded (self : Parser) (line name raw : string)
    (ld : LineDict) (self' : Parser) :
  Str.rstrip line = line ->
  Str.split1 ":" line = Some (name, raw) ->
  raw <> EmptyString ->
  Str.first_is " " raw = false ->
  let key := Str.rstrip (Str.lower name) in
  key <> EmptyString ->
  ~ (key = "hash" /\ _signed self = true) ->
  _parse_field E self line = Ok (ld, self') ->
  In {| code := "no_space"; message := Msg.no_space; line := _line_no self |}
     (_errors self')
  /\ ld = mk_line "field" (Some key) (Str.lstrip raw)
  /\ _values self' !! key = Some (values_of self key ++ [Str.lstrip raw])%list.
Proof.
  intros Hline Hsplit Hraw Hfirst key Hkey Hhash.
  pose proof (StrFacts.lstrip_value_not_empty _ _ _ _ Hline Hsplit Hraw) as Hval.
  unfold _parse_field. rewrite Hsplit.
  apply StrFacts.truthy_true in Hraw. rewrite Hraw, Hfirst. change (negb false) with true.
  set (self0 := if negb (String.eqb (Str.rstrip (Str.lower name)) (Str.lower name))
                then _add_error self "prec_ws" Msg.prec_ws None else self).
  assert (H0 : diag_ext self self0) by (subst self0; destruct (negb _); diag).
  replace (if negb (String.eqb (Str.rstrip (Str.lower name)) (Str.lower name))
           then (_add_error self "prec_ws" Msg.prec_ws None,
                 Str.rstrip (Str.lower name))
           else (self, Str.lower name))
    with (self0, key)
    by (subst self0 key;
        destruct (negb (String.eqb (Str.rstrip (Str.lower name)) (Str.lower name)))
          eqn:Hd; [reflexivity|];
        apply negb_false_iff, String.eqb_eq in Hd; rewrite Hd; reflexivity).
  cbv beta iota zeta.
  set (self1 := _add_error self0 "no_space" Msg.no_space None).
  assert (Hsigned : _signed self1 = _signed self) by (simpl; apply H0).
  assert (Hnh : String.eqb key "hash" && _signed self1 = false).
  { rewrite Hsigned. destruct (String.eqb key "hash") eqn:Hh; [|reflexivity].
    apply String.eqb_eq in Hh. destruct (_signed self) eqn:Hs; [|reflexivity].
    exfalso. apply Hhash. auto. }
  rewrite Hnh.
  apply StrFacts.truthy_true in Hkey, Hval. rewrite Hkey, Hval. change (negb true) with false.
  cbv iota.
  destruct (check_value E self1 key (Str.lstrip raw)) as [s2|] eqn:Hchk;
    [|discriminate].
  apply check_value_ext in Hchk. unfold rbind.
  set (s3 := if recommend_unknown_fields s2 && negb (str_in key known_fields)
             then _add_notification s2 "unknown_field" (Msg.unknown_field key)
             else s2).
  assert (H23 : diag_ext s2 s3) by (subst s3; destruct (recommend_unknown_fields s2 && _); diag).
  clearbody s3. intros [= <- <-].
  assert (H13 : diag_ext self1 s3) by (eapply diag_ext_trans; eassumption).
  split; [|split].
  - simpl. eapply prefix_In; [apply (de_errors _ _ H13)|].
    simpl. rewrite (de_line_no _ _ H0).
    apply in_or_app. right. left. reflexivity.
  - reflexivity.
  - cbn [_values values_append set_values].
    rewrite lookup_insert_eq. unfold values_of.
    rewrite (de_values _ _ H13). cbn [_values self1 _add_error set_errors].
    rewrite (de_values _ _ H0). reflexivity.
Qed.

End C6.

Lemma no_space_still_recorded_witness :
  let self := start "Contact:https://example.com/contact" UrlNone true in
  exists ld self',
    _parse_field Fake.E0 self "Contact:https://example.com/contact"
    = Ok (ld, self')
    /\ In {| code := "no_space"; message := Msg.no_space; line := Some 1 |}
          (_errors self')
    /\ ld = mk_line "field" (Some "contact") "https://example.com/contact"
    /\ _values self' !! "contact" = Some ["https://example.com/contact"].
Proof.
  intros self.
  assert (Hrun : exists r,
    _parse_field Fake.E0 self "Contact:https://example.com/contact" = Ok r)
    by (eexists; vm_compute; reflexivity).
  destruct Hrun as ([ld self'] & Hp). exists ld, self'. split; [exact Hp|].
  refine (no_space_still_recorded Fake.E0 self
            "Contact:https://example.com/contact" "Contact"
            "https://example.com/contact" ld self' _ _ _ _ _ _ Hp);
    try (vm_compute; reflexivity); try discriminate.
  intros [Hk _]. vm_compute in Hk. discriminate.
Defined.

(** The whole run on that line: the error, and the value in [_values]. *)
Example no_space_document :
  exists p,
    __init__ Fake.E0 "Contact:https://example.com/contact" UrlNone true = Ok p
    /\ In ("no_space", Some 1) (map (fun e => (code e, line e)) (errors p))
    /\ _values p !! "contact" = Some ["https://example.com/contact"].
Proof.
  eexists. split; [vm_compute; reflexivity|].
  split; vm_compute; auto.
Qed.

(** ** C7: the Hash header of a signed document *)

Section C7.

Variable E : Env.

(** C7, amended. A line with a colon whose name, lower-cased and
    right-stripped, is [hash], parsed while [_signed] holds, is recorded
    as kind [pgp_envelope] with the line as its value, and leaves the
    object as it was but for the two checks of the separator, which run
    before the name is looked at: [prec_ws] when the name ends with
    white space and [no_space] when the value does not start with a
    space. Nothing is appended to [_values], no notification and no
    other diagnostic is produced, and no library is called. *)
Theorem hash_header_is_envelope (self : Parser) (line name raw : string) :
  Str.split1 ":" line = Some (name, raw) ->
  Str.rstrip (Str.lower name) = "hash" ->
  _signed self = true ->
  let err c m := {| code := c; message := m; line := _line_no self |} in
  let prec_ws :=
    if negb (String.eqb (Str.rstrip (Str.lower name)) (Str.lower name))
    then [err "prec_ws" Msg.prec_ws] else [] in
  let no_space :=
    if Str.truthy raw && negb (Str.first_is " " raw)
    then [err "no_space" Msg.no_space] else [] in
  _parse_field E self line
  = Ok (mk_line "pgp_envelope" None line,
        set_errors self (_errors self ++ prec_ws ++ no_space)).
Proof.
  intros Hsplit Hname Hsigned. cbv zeta.
  unfold _parse_field. rewrite Hsplit.
  destruct self; simpl in Hsigned; subst.
  destruct (negb (String.eqb (Str.rstrip (Str.lower name)) (Str.lower name)))
    eqn:Hws;
    [| apply negb_false_iff, String.eqb_eq in Hws; rewrite Hws in Hname ];
    rewrite ?Hname;
    (destruct (Str.truthy raw); [destruct (Str.first_is " " raw)|]);
    cbn -[Str.lstrip Str.lower Str.rstrip];
    rewrite ?Hname; cbn -[_add_error set_errors];
    unfold _add_error, set_errors; cbn;
    (match goal with
     | |- Ok (?r, ?x) = Ok (?r, ?y) => apply (f_equal (fun z => Ok (r, z)))
     end);
    f_equal; rewrite <- ?app_assoc, ?app_nil_r; reflexivity.
Qed.

End C7.

Lemma hash_header_is_envelope_witness :
  let self := set_signed (set_line_no (new doc_signed_hash UrlNone true) (Some 2)) true in
  _parse_field Fake.E0 self "Hash:SHA256"
  = Ok (mk_line "pgp_envelope" None "Hash:SHA256",
        set_errors self
          [{| code := "no_space"; message := Msg.no_space; line := Some 2 |}]).
Proof.
  intros self.
  exact (hash_header_is_envelope Fake.E0 self "Hash:SHA256" "Hash" "SHA256"
           eq_refl eq_refl eq_refl).
Defined.

(** C7 as stated fails: in a signed document the line [Hash:SHA256], whose
    name lower-cases to [hash] and which is parsed while [_signed] holds, is
    recorded as kind [pgp_envelope] and yet gets a diagnostic of the field
    checks, the [no_space] error of line 2. *)
Lemma hash_header_counterexample :
  exists s p,
    for_lines Fake.E0 (start doc_signed_hash UrlNone true)
      [BEGIN_SIGNED] = Ok s
    /\ _signed s = true
    /\ nth_error (Str.split Str.LF doc_signed_hash) 1 = Some "Hash:SHA256"
    /\ Str.split1 ":" "Hash:SHA256" = Some ("Hash", "SHA256")
    /\ Str.lower "Hash" = "hash"
    /\ __init__ Fake.E0 doc_signed_hash UrlNone true = Ok p
    /\ nth_error (lines p) 1 = Some (mk_line "pgp_envelope" None "Hash:SHA256")
    /\ In {| code := "no_space"; message := Msg.no_space; line := Some 2 |}
          (errors p).
Proof.
  eexists. eexists.
  split; [vm_compute; reflexivity|].
  split; [vm_compute; reflexivity|].
  split; [vm_compute; reflexivity|].
  split; [vm_compute; reflexivity|].
  split; [vm_compute; reflexivity|].
  split; [vm_compute; reflexivity|].
  split; [vm_compute; reflexivity|].
  vm_compute. auto.
Qed.

(** ** C8: the signed-message header after the first line *)

Section C8.

Variable E : Env.

(** The header outside the signature, on a line that is not the first. *)
Lemma signed_header_line self l ld self' :
  _reading_sig self = false -> _finished_sig self = false ->
  Str.rstrip l = BEGIN_SIGNED ->
  _line_no self <> Some 1 ->
  _parse_line E self l = Ok (ld, self') ->
  In {| code := "signed_format_issue"; message := Msg.signed_format_issue;
        line := _line_no self |} (_errors self').
Proof.
  intros Hr Hf Hl Hn. unfold _parse_line. rewrite Hr, Hf, Hl.
  rewrite andb_false_r.
  replace (if _signed self && negb false && Str.startswith BEGIN_SIGNED "- "
           then Str.drop 2 BEGIN_SIGNED else BEGIN_SIGNED)
    with BEGIN_SIGNED by (destruct (_signed self); reflexivity).
  rewrite String.eqb_refl.
  rewrite bool_decide_eq_false_2 by exact Hn. change (negb false) with true.
  cbv iota. unfold rbind.
  destruct (from_blob E _) as [[]|[]]; try discriminate; intros [= <- <-];
    simpl; rewrite ?in_app_iff; simpl; tauto.
Qed.

(** C8, amended. For every completed run of a document in which a line
    equal to the header [-----BEGIN PGP SIGNED MESSAGE-----] (up to
    trailing white space) occurs at a line number other than 1 while the
    parser is neither reading the signature nor past its end, the errors
    have a [signed_format_issue] with the number of that line. *)
Theorem signed_header_not_first (content : string) (urls : urls_arg)
    (ruf : bool) (pre : list string) (l : string) (suf : list string)
    (s p : Parser) :
  Str.split Str.LF content = (pre ++ l :: suf)%list ->
  pre <> [] ->
  Str.rstrip l = BEGIN_SIGNED ->
  for_lines E (start content urls ruf) pre = Ok s ->
  _reading_sig s = false ->
  _finished_sig s = false ->
  __init__ E content urls ruf = Ok p ->
  In {| code := "signed_format_issue"; message := Msg.signed_format_issue;
        line := Some (length pre + 1) |} (errors p).
Proof.
  intros Hsplit Hpre Hl Hs Hr Hf Hp.
  apply __init___inv in Hp as (s_end & Hend & Hv).
  rewrite Hsplit, for_lines_app, Hs in Hend. unfold rbind in Hend.
  simpl in Hend. unfold rbind in Hend.
  destruct (loop_body E s l) as [s1|] eqn:Hbody; [|discriminate].
  apply for_lines_ext in Hs as [_ Hno _ _ _ _ _ _ _].
  specialize (Hno 1 eq_refl).
  assert (Hline : _line_no s = Some (length pre + 1))
    by (rewrite Hno; f_equal; lia).
  apply loop_body_inv in Hbody as (ld & a' & n & Hparse & _ & ->).
  apply (signed_header_line s l ld a' Hr Hf Hl) in Hparse.
  - rewrite Hline in Hparse.
    apply validate_contents_ext in Hv. apply for_lines_ext in Hend.
    eapply diag_ext_In_errors; [exact Hv|]. simpl.
    eapply prefix_In; [apply (pe_errors _ _ _ Hend)|]. exact Hparse.
  - rewrite Hline. intros [= H]. destruct pre; [congruence | simpl in H; lia].
Qed.

End C8.

Lemma signed_header_not_first_witness :
  exists p,
    __init__ Fake.E0 doc_second_header UrlNone true = Ok p
    /\ In {| code := "signed_format_issue"; message := Msg.signed_format_issue;
             line := Some 2 |} (errors p).
Proof.
  assert (Hrun : exists p, __init__ Fake.E0 doc_second_header UrlNone true = Ok p)
    by (eexists; vm_compute; reflexivity).
  destruct Hrun as (p & Hp). exists p. split; [exact Hp|].
  assert (Hpre : exists s,
    for_lines Fake.E0 (start doc_second_header UrlNone true) ["# security.txt"]
    = Ok s /\ _reading_sig s = false /\ _finished_sig s = false)
    by (eexists; split; [vm_compute; reflexivity | split; reflexivity]).
  destruct Hpre as (s & Hs & Hr & Hf).
  refine (signed_header_not_first Fake.E0 doc_second_header UrlNone true
            ["# security.txt"] BEGIN_SIGNED _ s p _ _ _ Hs Hr Hf Hp).
  - vm_compute. reflexivity.
  - discriminate.
  - reflexivity.
Defined.

(** C8 as stated fails: line 6 of this document is equal to the header, and
    the run has no error at all: inside the signature every line is part
    of the envelope. *)
Lemma signed_header_counterexample :
  exists p,
    nth_error (Str.split Str.LF doc_header_in_signature) 5 = Some BEGIN_SIGNED
    /\ __init__ Fake.E0 doc_header_in_signature UrlNone true = Ok p
    /\ nth_error (lines p) 5 = Some (mk_line "pgp_envelope" None BEGIN_SIGNED)
    /\ errors p = []
    /\ ~ exists e, In e (errors p) /\ code e = "signed_format_issue".
Proof.
  eexists.
  split; [vm_compute; reflexivity|].
  split; [vm_compute; reflexivity|].
  split; [vm_compute; reflexivity|].
  split; [vm_compute; reflexivity|].
  intros (e & Hin & _). vm_compute in Hin. exact Hin.
Qed.

(** ** C9: validity is the absence of errors *)

(** C9. [is_valid] is true exactly when the list of errors is empty, and
    it does not depend on the recommendations or the notifications:
    replacing both lists leaves it as it is. *)
Theorem is_valid_iff_no_errors (self : Parser) :
  (is_valid self = true <-> errors self = [])
  /\ (forall recs notifs,
        is_valid (set_notifications (set_recommendations self recs) notifs)
        = is_valid self).
Proof.
  unfold is_valid, errors. split.
  - destruct (_errors self); split; congruence.
  - intros recs notifs. reflexivity.
Qed.

(** A run with recommendations and no error is valid; a run with an error
    is not. *)
Example is_valid_runs :
  (exists p, __init__ Fake.E0 doc_minimal UrlNone true = Ok p
             /\ map code (recommendations p) = ["no_encryption"; "not_signed"]
             /\ is_valid p = true)
  /\ (exists p, __init__ Fake.E0 doc_two_expires UrlNone true = Ok p
                /\ is_valid p = false).
Proof.
  split; eexists; (split; [vm_compute; reflexivity|]);
    try split; vm_compute; reflexivity.
Qed.

(** ** C10: the first Preferred-Languages field *)

Section OtherChecks.

Variables (V : gmap string (list string)) (x : Parser).
Hypothesis HV : agree_off_languages V x.

Lemma has_key_off k :
  k <> PREFERRED_LANGUAGES -> has_key (set_values x V) k = has_key x k.
Proof. intros Hk. unfold has_key. simpl. rewrite (HV k Hk). reflexivity. Qed.

Lemma values_of_off k :
  k <> PREFERRED_LANGUAGES -> values_of (set_values x V) k = values_of x k.
Proof. intros Hk. unfold values_of. simpl. rewrite (HV k Hk). reflexivity. Qed.

Lemma check_expires_count_off :
  check_expires_count (set_values x V) = set_values (check_expires_count x) V.
Proof.
  unfold check_expires_count.
  rewrite has_key_off, values_of_off by discriminate.
  repeat case_match; reflexivity.
Qed.

Lemma check_canonical_match_off :
  check_canonical_match (set_values x V) = set_values (check_canonical_match x) V.
Proof.
  unfold check_canonical_match.
  rewrite has_key_off, values_of_off by discriminate. simpl _urls.
  repeat case_match; reflexivity.
Qed.

Lemma check_line_separators_off :
  check_line_separators (set_values x V)
  = (try! m <- check_line_separators x; Ok (set_values m V)).
Proof.
  unfold check_line_separators, lines, rbind. simpl _line_info.
  repeat case_match; reflexivity.
Qed.

Lemma check_csaf_off :
  check_csaf (set_values x V) = set_values (check_csaf x) V.
Proof.
  unfold check_csaf, has_key, values_of. cbn [_values set_values].
  rewrite (HV "csaf") by discriminate.
  destruct (_values x !! "csaf") as [l|]; [|reflexivity].
  cbn [default id].
  destruct (negb (forallb _ l));
    cbn [_values set_values _add_error set_errors];
    rewrite ?(HV "csaf") by discriminate;
    destruct (1 <? _); reflexivity.
Qed.

Lemma check_contact_off :
  check_contact (set_values x V) = set_values (check_contact x) V.
Proof.
  unfold check_contact.
  rewrite !has_key_off, values_of_off by discriminate.
  repeat case_match; reflexivity.
Qed.

Lemma check_signed_off :
  check_signed (set_values x V) = set_values (check_signed x) V.
Proof. unfold check_signed. simpl _signed. case_match; reflexivity. Qed.

Lemma check_signed_canonical_off :
  check_signed_canonical (set_values x V)
  = set_values (check_signed_canonical x) V.
Proof.
  unfold check_signed_canonical. simpl _signed. simpl _values.
  rewrite (HV "canonical") by discriminate.
  repeat case_match; reflexivity.
Qed.

End OtherChecks.

Lemma agree_off_languages_ext V a b :
  diag_ext a b -> agree_off_languages V a -> agree_off_languages V b.
Proof. intros Hab HV k Hk. rewrite (de_values _ _ Hab). apply HV, Hk. Qed.

(** The two checks that follow the count of the languages only append
    recommendations: an error appended before them stays the last one. *)
Lemma check_signed_add_error y c m n :
  check_signed (_add_error y c m n) = _add_error (check_signed y) c m n.
Proof. unfold check_signed. simpl _signed. case_match; reflexivity. Qed.

Lemma check_signed_canonical_add_error y c m n :
  check_signed_canonical (_add_error y c m n)
  = _add_error (check_signed_canonical y) c m n.
Proof.
  unfold check_signed_canonical. simpl _signed. simpl _values.
  case_match; reflexivity.
Qed.

(** In the cross-field pass the later occurrences of [preferred-languages]
    add the [multi_lang] error and nothing else. *)
Lemma validate_contents_later_languages self v rest p :
  _values self !! PREFERRED_LANGUAGES = Some (v :: rest) ->
  validate_contents self = Ok p ->
  exists p1,
    validate_contents (first_language_only self v) = Ok p1
    /\ _errors p
       = (_errors p1
          ++ match rest with
             | [] => []
             | _ => [{| code := "multi_lang"; message := Msg.multi_lang;
                        line := _line_no self |}]
             end)%list
    /\ _recommendations p = _recommendations p1
    /\ _notifications p = _notifications p1.
Proof.
  intros Hv Hp.
  set (x := first_language_only self v).
  assert (Hself : self = set_values x (_values self)) by (destruct self; reflexivity).
  assert (HV : agree_off_languages (_values self) x).
  { intros k Hk. unfold x, first_language_only. simpl.
    rewrite lookup_insert_ne by congruence. reflexivity. }
  assert (Hx : _values x !! PREFERRED_LANGUAGES = Some [v]).
  { unfold x, first_language_only. simpl. apply lookup_insert_eq. }
  assert (Hno : _line_no x = _line_no self) by reflexivity.
  clearbody x. revert Hp. rewrite Hself at 1. clear Hself.
  generalize dependent (_values self). intros V Hv HV.
  unfold validate_contents.
  rewrite (check_expires_count_off V x HV).
  pose proof (check_expires_count_ext x) as H1.
  rewrite (check_canonical_match_off V _ (agree_off_languages_ext _ _ _ H1 HV)).
  pose proof (diag_ext_trans _ _ _ H1 (check_canonical_match_ext _)) as H2.
  rewrite (check_line_separators_off V _).
  destruct (check_line_separators _) as [m|] eqn:Hm; unfold rbind;
    [|discriminate].
  pose proof (diag_ext_trans _ _ _ H2 (check_line_separators_ext _ _ Hm)) as H3.
  rewrite (check_csaf_off V _ (agree_off_languages_ext _ _ _ H3 HV)).
  pose proof (diag_ext_trans _ _ _ H3 (check_csaf_ext _)) as H4.
  rewrite (check_contact_off V _ (agree_off_languages_ext _ _ _ H4 HV)).
  pose proof (diag_ext_trans _ _ _ H4 (check_contact_ext _)) as H5.
  set (y := check_contact (check_csaf m)) in *.
  assert (Hy : check_languages_count y = y).
  { unfold check_languages_count, has_key, values_of.
    rewrite (de_values _ _ H5), Hx. reflexivity. }
  assert (HyV : check_languages_count (set_values y V)
                = match rest with
                  | [] => set_values y V
                  | _ => set_values (_add_error y "multi_lang" Msg.multi_lang None) V
                  end).
  { unfold check_languages_count, has_key, values_of. simpl _values.
    rewrite Hv. destruct rest; reflexivity. }
  rewrite HyV, Hy. intros [= <-].
  eexists. split; [reflexivity|].
  pose proof (agree_off_languages_ext _ _ _ H5 HV) as HVy.
  destruct rest as [|w rest].
  - rewrite (check_signed_off V y).
    rewrite (check_signed_canonical_off V _
               (agree_off_languages_ext _ _ _ (check_signed_ext y) HVy)).
    simpl. rewrite app_nil_r. auto.
  - assert (HVe : agree_off_languages V
                    (_add_error y "multi_lang" Msg.multi_lang None))
      by exact HVy.
    rewrite (check_signed_off V _).
    rewrite (check_signed_canonical_off V _
               (agree_off_languages_ext _ _ _ (check_signed_ext _) HVe)).
    rewrite check_signed_add_error, check_signed_canonical_add_error.
    simpl. rewrite (de_line_no _ _ (check_signed_canonical_ext _)),
      (de_line_no _ _ (check_signed_ext _)), (de_line_no _ _ H5), Hno.
    auto.
Qed.

Section C10.

Variable E : Env.

(** C10. In a completed run whose records have the field
    [preferred-languages] with the values [v :: rest], in the order of the
    lines, the accessor returns the tokens of [v], the value of the first
    occurrence, split on commas and stripped, whatever [rest] is; when
    there is a later occurrence the errors have [multi_lang]; and the
    cross-field pass of the same object with [v] alone recorded ends with
    the same accessor result, the same recommendations and notifications,
    and the same errors but for that [multi_lang]. *)
Theorem preferred_languages_first (content : string) (urls : urls_arg)
    (ruf : bool) (p : Parser) (v : string) (rest : list string) :
  __init__ E content urls ruf = Ok p ->
  fields_named PREFERRED_LANGUAGES (lines p) = v :: rest ->
  preferred_languages p = Ok (Some (map Str.strip (Str.split "," v)))
  /\ (rest <> [] ->
      In (document_error "multi_lang" Msg.multi_lang) (errors p))
  /\ exists s p1,
       for_lines E (start content urls ruf) (Str.split Str.LF content) = Ok s
       /\ validate_contents (first_language_only (set_line_no s None) v) = Ok p1
       /\ preferred_languages p1 = preferred_languages p
       /\ errors p
          = (errors p1
             ++ match rest with
                | [] => []
                | _ => [document_error "multi_lang" Msg.multi_lang]
                end)%list
       /\ recommendations p = recommendations p1
       /\ notifications p = notifications p1.
Proof.
  intros H Hf.
  apply run_facts in H as (s & Hs & Hv & _ & _ & Hval & _ & Hag & _).
  pose proof (Hag PREFERRED_LANGUAGES) as Hpl. unfold lines in Hf.
  rewrite Hf in Hpl.
  assert (Hacc : preferred_languages p
                 = Ok (Some (map Str.strip (Str.split "," v)))).
  { unfold preferred_languages. rewrite Hpl. reflexivity. }
  rewrite Hval in Hpl.
  destruct (validate_contents_later_languages (set_line_no s None) v rest p
              Hpl Hv) as (p1 & Hp1 & He & Hr & Hn).
  split; [exact Hacc|]. split.
  - intros Hrest. unfold errors. rewrite He. apply in_or_app. right.
    destruct rest; [congruence|]. left. reflexivity.
  - exists s, p1. split; [exact Hs|]. split; [exact Hp1|].
    split; [|split; [exact He | split; [exact Hr | exact Hn]]].
    rewrite Hacc. unfold preferred_languages.
    rewrite (de_values _ _ (validate_contents_ext _ _ Hp1)).
    unfold first_language_only. simpl. rewrite lookup_insert_eq. reflexivity.
Qed.

End C10.

Lemma preferred_languages_first_witness :
  exists p,
    __init__ Fake.E0 doc_two_languages UrlNone true = Ok p
    /\ preferred_languages p = Ok (Some ["en"; "nl"])
    /\ In (document_error "multi_lang" Msg.multi_lang) (errors p).
Proof.
  assert (Hrun : exists p, __init__ Fake.E0 doc_two_languages UrlNone true = Ok p)
    by (eexists; vm_compute; reflexivity).
  destruct Hrun as (p & Hp). exists p. split; [exact Hp|].
  assert (Hf : fields_named PREFERRED_LANGUAGES (lines p) = ["en, nl"; "fr"]).
  { pose proof Hp as Hp'. vm_compute in Hp'. injection Hp' as <-.
    vm_compute. reflexivity. }
  destruct (preferred_languages_first Fake.E0 doc_two_languages UrlNone true
              p "en, nl" ["fr"] Hp Hf) as (Hacc & Hmulti & _).
  split; [exact Hacc | apply Hmulti; discriminate].
Defined.
